(** * Poco::JSON::Template: part tree, guards, rendering and the directive parser

    A shallow embedding of [Template.cpp] (library JSON, module Template).
    The part classes become one inductive type with a [render] function per
    class, the guards ([LogicQuery] and its two subclasses) a three-case
    inductive type, the input stream a record read through [get], [peek] and
    [putback], and [Template::parse] a loop over that stream which grows the
    part tree along the stack of open blocks.

    The dynamic value model ([Poco::Dynamic::Var], [JSON::Query],
    [JSON::Object], [JSON::Array]), the path and file classes and the
    template cache are not part of the translated file; they enter as the
    interfaces [ValueModel] and [FileSystem] and as the handler of
    [IncludePart]. *)

From Stdlib Require Import Ascii.
From stdpp Require Import gmap strings list fin_maps pretty.

Set Warnings "-register-all".
Open Scope string_scope.

(** ** Outcomes of fallible operations *)

(** What a call can end in: a normal return, a thrown
    [JSONTemplateException] (or an exception of a collaborator), the
    dereference of a null pointer, or the exhaustion of the bound the
    model puts on nested includes and on the rounds of the parse loop. *)
Inductive Outcome (A : Type) : Type :=
| Done (a : A)
| Thrown (reason : string)
| NullDeref
| Exhausted.

Arguments Done {A} a.
Arguments Thrown {A} reason.
Arguments NullDeref {A}.
Arguments Exhausted {A}.

#[export] Instance Outcome_ret : MRet Outcome := fun A a => Done a.

#[export] Instance Outcome_bind : MBind Outcome := fun A B f m =>
  match m with
  | Done a => f a
  | Thrown reason => Thrown reason
  | NullDeref => NullDeref
  | Exhausted => Exhausted
  end.

#[export] Instance Outcome_fmap : FMap Outcome := fun A B f m =>
  match m with
  | Done a => Done (f a)
  | Thrown reason => Thrown reason
  | NullDeref => NullDeref
  | Exhausted => Exhausted
  end.

(** ** The value model *)

(** Modelled from the spec: [Poco::Dynamic::Var] as used with the JSON
    library is not under src/. The spec describes it as a tagged union of
    null, bool, number, string, object and array; the empty [Var] is the
    null value. Numbers are taken as integers. An object maps field names
    to values, an array is a sequence of values. Values form a tree: an
    object is not reachable from itself. *)
Inductive Var : Type :=
| VEmpty
| VBool (b : bool)
| VInt (n : Z)
| VString (s : string)
| VObject (fields : gmap string Var)
| VArray (elems : list Var).

(** [Var::isEmpty()] *)
Definition Var_isEmpty (value : Var) : bool :=
  match value with VEmpty => true | _ => false end.

(** [Var::isString()] *)
Definition Var_isString (value : Var) : bool :=
  match value with VString _ => true | _ => false end.

(** [data.type() == typeid(Object::Ptr)] *)
Definition Var_isObject (data : Var) : bool :=
  match data with VObject _ => true | _ => false end.

(** Modelled from the spec: [Object::set(name, value)] is not under src/;
    the spec asks of an object the ability to set a named field. Applied to
    the object that [data] holds. *)
Definition Object_set (name : string) (value : Var) (data : Var) : Var :=
  match data with
  | VObject fields => VObject (<[name := value]> fields)
  | _ => data
  end.

(** Modelled from the spec: [Object::remove(name)] is not under src/; the
    spec asks of an object the ability to remove a named field. *)
Definition Object_remove (name : string) (data : Var) : Var :=
  match data with
  | VObject fields => VObject (delete name fields)
  | _ => data
  end.

(** The field [name] of the object held by [data], if any. *)
Definition Object_get (name : string) (data : Var) : option Var :=
  match data with
  | VObject fields => fields !! name
  | _ => None
  end.

(** The operations of the value model the template code calls and that are
    not under src/: [Query::find], [Var::convert<std::string>] and
    [Var::convert<bool>]. The one law is that converting a string value to
    a string gives the string. *)
Class ValueModel := {
  Query_find : Var -> string -> Var;
  convert_string : Var -> string;
  convert_bool : Var -> bool;
  convert_string_VString : forall s, convert_string (VString s) = s
}.

Section Rendering.

Context `{VM : ValueModel}.

(** Modelled from the spec: [Query::findArray(path)] is not under src/; it
    is the array the path resolves to, or null when the path does not
    resolve to an array. *)
Definition Query_findArray (data : Var) (path : string) : option (list Var) :=
  match Query_find data path with
  | VArray elems => Some elems
  | _ => None
  end.

(** ** Guards *)

(** [LogicQuery] (truthiness of the value), [LogicExistQuery] (existence of
    the value) and [LogicElseQuery] (the guard of an else branch). *)
Inductive LogicQuery : Type :=
| LogicValueQuery (queryString : string)
| LogicExistQuery (queryString : string)
| LogicElseQuery.

(** [std::string::empty()] *)
Definition string_empty (s : string) : bool :=
  match s with EmptyString => true | String _ _ => false end.

(** [LogicQuery::apply], [LogicExistQuery::apply], [LogicElseQuery::apply] *)
Definition LogicQuery_apply (q : LogicQuery) (data : Var) : bool :=
  match q with
  | LogicValueQuery queryString =>
      let value := Query_find data queryString in
      if negb (Var_isEmpty value) then
        if Var_isString value then
          let s := convert_string value in
          negb (string_empty s)
        else convert_bool value
      else false
  | LogicExistQuery queryString =>
      let value := Query_find data queryString in
      negb (Var_isEmpty value)
  | LogicElseQuery => true
  end.

(** ** The part tree *)

Definition Path := string.

(** The classes derived from [Part]. A [LogicPart] holds the guards
    [_queries] next to the bodies [_parts]; a [LoopPart] is a [MultiPart]
    whose [_parts] are the loop body. *)
Inductive Part : Type :=
| StringPart (content : string)
| MultiPart (parts : list Part)
| EchoPart (query : string)
| LogicPart (queries : list LogicQuery) (parts : list Part)
| LoopPart (name query : string) (parts : list Part)
| IncludePart (path : Path).

(** ** Rendering *)

(** [render(const Var& data, std::ostream& out)]: the object behind [data]
    is shared with the caller and changed in place by loops, and [out] is
    appended to; both are threaded through. *)
Definition Renderer := Var -> string -> Outcome (Var * string).

(** [IncludePart::render] obtains a template from the cache or the file
    system and renders it; the handler stands for that call. *)
Variable includeRender : Path -> Renderer.

(** [StringPart::render] *)
Definition StringPart_render (content : string) : Renderer :=
  fun data out => Done (data, out +:+ content).

(** [MultiPart::render]: the children in order. *)
Fixpoint MultiPart_render (parts : list Renderer) : Renderer :=
  fun data out =>
    match parts with
    | [] => Done (data, out)
    | p :: rest =>
        '(data', out') ← p data out;
        MultiPart_render rest data' out'
    end.

(** [EchoPart::render] *)
Definition EchoPart_render (query : string) : Renderer :=
  fun data out =>
    let value := Query_find data query in
    if negb (Var_isEmpty value)
    then Done (data, out +:+ convert_string value)
    else Done (data, out).

(** The loop of [LogicPart::render]; [count] runs along with the iterator
    over [_queries]. *)
Fixpoint LogicPart_loop (queries : list LogicQuery) (parts : list Renderer)
    (count : nat) : Renderer :=
  fun data out =>
    match queries with
    | [] => Done (data, out)
    | q :: rest =>
        if LogicQuery_apply q data && bool_decide (count < length parts)
        then match parts !! count with
             | Some p => p data out
             | None => Done (data, out)
             end
        else LogicPart_loop rest parts (S count) data out
    end.

(** [LogicPart::render] *)
Definition LogicPart_render (queries : list LogicQuery)
    (parts : list Renderer) : Renderer :=
  LogicPart_loop queries parts 0.

(** The [for] statement of [LoopPart::render] over the elements of the
    array found before the loop. *)
Fixpoint LoopPart_loop (name : string) (body : Renderer) (elems : list Var)
    : Renderer :=
  fun data out =>
    match elems with
    | [] => Done (data, out)
    | value :: rest =>
        '(data', out') ← body (Object_set name value data) out;
        LoopPart_loop name body rest data' out'
    end.

(** [LoopPart::render]; [body] is [MultiPart::render] on the loop's own
    parts. *)
Definition LoopPart_render (name query : string) (body : Renderer) : Renderer :=
  fun data out =>
    if Var_isObject data then
      match Query_findArray data query with
      | Some elems =>
          '(data', out') ← LoopPart_loop name body elems data out;
          Done (Object_remove name data', out')
      | None => Done (data, out)
      end
    else Done (data, out).

(** Virtual dispatch of [Part::render]. *)
Fixpoint render (p : Part) : Renderer :=
  match p with
  | StringPart content => StringPart_render content
  | MultiPart parts => MultiPart_render (List.map render parts)
  | EchoPart query => EchoPart_render query
  | LogicPart queries parts => LogicPart_render queries (List.map render parts)
  | LoopPart name query parts =>
      LoopPart_render name query (MultiPart_render (List.map render parts))
  | IncludePart path => includeRender path
  end.

End Rendering.

(** ** The input stream *)

(** A [std::istream] over the template source: the characters not yet
    extracted and whether the stream is still [good()]. Reading past the
    end sets the end-of-file state, after which nothing is read. *)
Record istream : Type := { buf : string; good : bool }.

Definition istream_of (source : string) : istream :=
  {| buf := source; good := true |}.

(** [in.bad()]: set by a failing stream buffer only, which a buffer over a
    given source text never is. *)
Definition bad (s : istream) : bool := false.

(** A scanner reads from the stream and leaves it advanced. *)
Definition Scan (A : Type) : Type := istream -> A * istream.

#[export] Instance Scan_ret : MRet Scan := fun A a s => (a, s).

#[export] Instance Scan_bind : MBind Scan := fun A B f m s =>
  let '(a, s') := m s in f a s'.

(** [in.get()]; [None] is the value -1. *)
Definition get : Scan (option ascii) := fun s =>
  if good s then
    match buf s with
    | String c rest => (Some c, {| buf := rest; good := true |})
    | EmptyString => (None, {| buf := ""; good := false |})
    end
  else (None, s).

(** [in.peek()] *)
Definition peek : Scan (option ascii) := fun s =>
  if good s then
    match buf s with
    | String c _ => (Some c, s)
    | EmptyString => (None, {| buf := ""; good := false |})
    end
  else (None, s).

(** [in.putback(c)]; the scanner calls it on a good stream only, right
    after a [peek] that found a character. *)
Definition putback (c : ascii) : Scan unit := fun s =>
  if good s then (tt, {| buf := String c (buf s); good := true |})
  else (tt, s).

(** Modelled from the spec: [Poco::Ascii::isSpace] is not under src/; the
    spec speaks of whitespace, taken as the ASCII white-space characters
    HT, LF, VT, FF, CR and the space. *)
Definition Ascii_isSpace (c : ascii) : bool :=
  let n := nat_of_ascii c in
  bool_decide (9 <= n <= 13) || bool_decide (n = 32).

(** [text += static_cast<char>(c)] *)
Definition push_back (text : string) (c : ascii) : string :=
  text +:+ String c "".

(** ** The directive scanner

    Each [while] loop of the scanner is a recursion on a bound that the
    caller sets above the number of characters left in the stream; a loop
    that reaches the bound returns what it has read, as it does at the end
    of the stream. *)

(** The loop of [Template::readText]. *)
Fixpoint readText_loop (fuel : nat) (c : option ascii) (text : string)
    : Scan string :=
  match fuel, c with
  | S fuel', Some ch =>
      opener ← (if decide (ch = "<"%char)
                then p ← peek; mret (bool_decide (p = Some "?"%char))
                else mret false);
      if opener : bool then _ ← get; mret text
      else c' ← get; readText_loop fuel' c' (push_back text ch)
  | _, _ => mret text
  end.

(** [Template::readText] *)
Definition readText : Scan string := fun s =>
  (c ← get; readText_loop (S (String.length (buf s))) c "") s.

(** [Template::readWhiteSpace] *)
Fixpoint readWhiteSpace_loop (fuel : nat) : Scan unit :=
  match fuel with
  | S fuel' =>
      c ← peek;
      match c with
      | Some ch =>
          if Ascii_isSpace ch then _ ← get; readWhiteSpace_loop fuel'
          else mret tt
      | None => mret tt
      end
  | 0 => mret tt
  end.

Definition readWhiteSpace : Scan unit := fun s =>
  readWhiteSpace_loop (S (String.length (buf s))) s.

(** The loop of [Template::readTemplateCommand]. *)
Fixpoint readTemplateCommand_loop (fuel : nat) (c : option ascii)
    (command : string) : Scan string :=
  match fuel, c with
  | S fuel', Some ch =>
      if Ascii_isSpace ch then mret command
      else
        closer ← (if decide (ch = "?"%char)
                  then p ← peek; mret (bool_decide (p = Some ">"%char))
                  else mret false);
        if closer : bool then _ ← putback ch; mret command
        else if bool_decide (ch = "="%char)
                && bool_decide (String.length command = 0)
        then mret "echo"
        else c' ← get; readTemplateCommand_loop fuel' c' (push_back command ch)
  | _, _ => mret command
  end.

(** [Template::readTemplateCommand] *)
Definition readTemplateCommand : Scan string := fun s =>
  (_ ← readWhiteSpace;
   c ← get;
   readTemplateCommand_loop (S (String.length (buf s))) c "") s.

(** [Template::readWord] *)
Fixpoint readWord_loop (fuel : nat) (word : string) : Scan string :=
  match fuel with
  | S fuel' =>
      c ← peek;
      match c with
      | Some ch =>
          if negb (Ascii_isSpace ch)
          then _ ← get; readWord_loop fuel' (push_back word ch)
          else mret word
      | None => mret word
      end
  | 0 => mret word
  end.

Definition readWord : Scan string := fun s =>
  readWord_loop (S (String.length (buf s))) "" s.

(** [Template::readQuery] *)
Fixpoint readQuery_loop (fuel : nat) (word : string) : Scan string :=
  match fuel with
  | S fuel' =>
      c ← get;
      match c with
      | Some ch =>
          closer ← (if decide (ch = "?"%char)
                    then p ← peek; mret (bool_decide (p = Some ">"%char))
                    else mret false);
          if closer : bool then _ ← putback ch; mret word
          else if Ascii_isSpace ch then mret word
          else readQuery_loop fuel' (push_back word ch)
      | None => mret word
      end
  | 0 => mret word
  end.

Definition readQuery : Scan string := fun s =>
  readQuery_loop (S (String.length (buf s))) "" s.

(** The double quote character. *)
Definition quote : ascii := "034"%char.

(** [Template::readString] *)
Fixpoint readString_loop (fuel : nat) (str : string) : Scan string :=
  match fuel with
  | S fuel' =>
      c ← get;
      match c with
      | Some ch =>
          if decide (ch = quote) then mret str
          else readString_loop fuel' (push_back str ch)
      | None => mret str
      end
  | 0 => mret str
  end.

Definition readString : Scan string := fun s =>
  (c ← get;
   if decide (c = Some quote)
   then readString_loop (S (String.length (buf s))) ""
   else mret "") s.

(** ** Directives *)

(** A directive once its command word and its arguments are read. *)
Inductive Command : Type :=
| CmdEcho (query : string)
| CmdFor (loopVariable query : string)
| CmdElse
| CmdElsif (query : string)
| CmdEndfor
| CmdEndif
| CmdIf (query : string)
| CmdIfexist (query : string)
| CmdInclude (filename : string).

(** The reading half of the command chain of [Template::parse]: what each
    branch reads from the stream after the command word, and the exception
    it throws when a required token is missing. *)
Definition readCommandArguments (command : string) : Scan (Outcome Command) :=
  if decide (command = "echo") then
    query ← readQuery;
    mret (if string_empty query
          then Thrown "Missing query in <? echo ?>"
          else Done (CmdEcho query))
  else if decide (command = "for") then
    loopVariable ← readWord;
    if string_empty loopVariable
    then mret (Thrown "Missing variable in <? for ?> command")
    else
      _ ← readWhiteSpace;
      query ← readQuery;
      mret (if string_empty query
            then Thrown "Missing query in <? for ?> command"
            else Done (CmdFor loopVariable query))
  else if decide (command = "else") then mret (Done CmdElse)
  else if bool_decide (command = "elsif") || bool_decide (command = "elif") then
    query ← readQuery;
    mret (if string_empty query
          then Thrown ("Missing query in <? " +:+ command +:+ " ?>")
          else Done (CmdElsif query))
  else if decide (command = "endfor") then mret (Done CmdEndfor)
  else if decide (command = "endif") then mret (Done CmdEndif)
  else if bool_decide (command = "if") || bool_decide (command = "ifexist") then
    query ← readQuery;
    mret (if string_empty query
          then Thrown ("Missing query in <? " +:+ command +:+ " ?>")
          else Done (if decide (command = "ifexist")
                     then CmdIfexist query else CmdIf query))
  else if decide (command = "include") then
    _ ← readWhiteSpace;
    filename ← readString;
    mret (if string_empty filename
          then Thrown "Missing filename in <? include ?>"
          else Done (CmdInclude filename))
  else mret (Thrown ("Unknown command " +:+ command)).

(** The end of a directive in [Template::parse]: white space, the closer
    [?>], and after a command other than [echo] one carriage return and
    one line feed if they follow. *)
Definition closeDirective (command : string) : Scan (Outcome unit) :=
  _ ← readWhiteSpace;
  c ← get;
  closer ← (if decide (c = Some "?"%char)
            then p ← peek; mret (bool_decide (p = Some ">"%char))
            else mret false);
  if closer : bool then
    _ ← get;
    if decide (command = "echo") then mret (Done tt)
    else
      cr ← peek;
      _ ← (if decide (cr = Some "013"%char) then _ ← get; mret tt else mret tt);
      lf ← peek;
      _ ← (if decide (lf = Some "010"%char) then _ ← get; mret tt else mret tt);
      mret (Done tt)
  else mret (Thrown "Missing ?>").

(** ** The tree under construction *)

(** Modelled from the spec: [Poco::Path] and [Poco::File] are not under
    src/; paths are path names, and the file system answers whether a path
    is relative, what its parent is, what a path resolved against a
    directory is, whether a file exists and what it contains. *)
Class FileSystem := {
  Path_isRelative : Path -> bool;
  Path_makeParent : Path -> Path;
  Path_resolve : Path -> Path -> Path;
  File_exists : Path -> bool;
  FileInputStream : Path -> string
}.

(** The block whose pointer is on top of a pair of [_partStack]: a
    [LogicPart] with the guards added so far and the branches before the
    one being filled, or a [LoopPart], whose own parts are being filled. *)
Inductive Block : Type :=
| LogicBlock (queries : list LogicQuery) (branches : list Part)
| LoopBlock (name query : string).

(** The two pointers pushed when a block opens: the part that was current
    (its children so far) and the block added to it. *)
Record Frame : Type := { enclosing : list Part; block : Block }.

(** [_currentPart] (the children it has so far) and [_partStack], top
    first. Every part is added at [_currentPart], which is the last branch
    of the innermost open [LogicPart], the innermost open [LoopPart], or
    the root when no block is open; the parts on the stack are its
    ancestors, so the tree is the current part closed into each frame in
    turn. *)
Record Builder : Type := { _currentPart : list Part; _partStack : list Frame }.

(** The part a frame stands for once the part being filled is complete. *)
Definition Frame_close (f : Frame) (current : list Part) : list Part :=
  enclosing f ++
  [match block f with
   | LogicBlock queries branches =>
       LogicPart queries (branches ++ [MultiPart current])
   | LoopBlock name query => LoopPart name query current
   end].

(** The children of the root [MultiPart] that [_parts] points to. *)
Fixpoint Builder_root (current : list Part) (stack : list Frame) : list Part :=
  match stack with
  | [] => current
  | f :: rest => Builder_root (Frame_close f current) rest
  end.

(** [_currentPart->addPart(part)] *)
Definition addPart (part : Part) (b : Builder) : Builder :=
  {| _currentPart := _currentPart b ++ [part]; _partStack := _partStack b |}.

Section Parsing.

Context `{FS : FileSystem}.

(** The constructor of [IncludePart]. *)
Definition IncludePart_new (parentPath path : Path) : Part :=
  IncludePart
    (if Path_isRelative path then
       let templatePath := Path_resolve parentPath path in
       if File_exists templatePath then templatePath else path
     else path).

(** The building half of the command chain of [Template::parse]: the
    effect of each branch on [_currentPart] and [_partStack], and the
    exception it throws when the stack does not hold the block it needs. *)
Definition Builder_apply (templatePath : Path) (c : Command) (b : Builder)
    : Outcome Builder :=
  match c with
  | CmdEcho query => Done (addPart (EchoPart query) b)
  | CmdFor loopVariable query =>
      Done {| _currentPart := [];
              _partStack := {| enclosing := _currentPart b;
                               block := LoopBlock loopVariable query |}
                            :: _partStack b |}
  | CmdElse =>
      match _partStack b with
      | [] => Thrown "Unexpected <? else ?> found"
      | f :: rest =>
          match block f with
          | LogicBlock queries branches =>
              Done {| _currentPart := [];
                      _partStack :=
                        {| enclosing := enclosing f;
                           block := LogicBlock (queries ++ [LogicElseQuery])
                                      (branches ++ [MultiPart (_currentPart b)]) |}
                        :: rest |}
          | LoopBlock _ _ =>
              Thrown "Missing <? if ?> or <? ifexist ?> for <? else ?>"
          end
      end
  | CmdElsif query =>
      match _partStack b with
      | [] => Thrown "Unexpected <? elsif / elif ?> found"
      | f :: rest =>
          match block f with
          | LogicBlock queries branches =>
              Done {| _currentPart := [];
                      _partStack :=
                        {| enclosing := enclosing f;
                           block := LogicBlock (queries ++ [LogicValueQuery query])
                                      (branches ++ [MultiPart (_currentPart b)]) |}
                        :: rest |}
          | LoopBlock _ _ =>
              Thrown "Missing <? if ?> or <? ifexist ?> for <? elsif / elif ?>"
          end
      end
  | CmdEndfor =>
      match _partStack b with
      | [] => Thrown "Unexpected <? endfor ?> found"
      | f :: rest =>
          match block f with
          | LoopBlock _ _ =>
              Done {| _currentPart := Frame_close f (_currentPart b);
                      _partStack := rest |}
          | LogicBlock _ _ => Thrown "Missing <? for ?> command"
          end
      end
  | CmdEndif =>
      match _partStack b with
      | [] => Thrown "Unexpected <? endif ?> found"
      | f :: rest =>
          match block f with
          | LogicBlock _ _ =>
              Done {| _currentPart := Frame_close f (_currentPart b);
                      _partStack := rest |}
          | LoopBlock _ _ =>
              Thrown "Missing <? if ?> or <? ifexist ?> for <? endif ?>"
          end
      end
  | CmdIf query =>
      Done {| _currentPart := [];
              _partStack := {| enclosing := _currentPart b;
                               block := LogicBlock [LogicValueQuery query] [] |}
                            :: _partStack b |}
  | CmdIfexist query =>
      Done {| _currentPart := [];
              _partStack := {| enclosing := _currentPart b;
                               block := LogicBlock [LogicExistQuery query] [] |}
                            :: _partStack b |}
  | CmdInclude filename =>
      let resolvePath := Path_makeParent templatePath in
      Done (addPart (IncludePart_new resolvePath filename) b)
  end.

(** The [while (in.good())] loop of [Template::parse(std::istream&)]; one
    unit of [fuel] per directive. *)
Fixpoint parse_loop (fuel : nat) (templatePath : Path) (b : Builder)
    (s : istream) : Outcome Builder :=
  match fuel with
  | 0 => Exhausted
  | S fuel' =>
      if good s then
        let '(text, s) := readText s in
        let b := if bool_decide (0 < String.length text)
                 then addPart (StringPart text) b else b in
        if bad s then Done b
        else
          let '(command, s) := readTemplateCommand s in
          if string_empty command then Done b
          else
            let '(_, s) := readWhiteSpace s in
            let '(arguments, s) := readCommandArguments command s in
            c ← arguments;
            b ← Builder_apply templatePath c b;
            let '(closed, s) := closeDirective command s in
            _ ← closed;
            parse_loop fuel' templatePath b s
      else Done b
  end.

(** A [Template]: its path and, once [_parts] is not the null pointer, the
    tree under it with the position of [_currentPart] and [_partStack]. *)
Record Template : Type := { _templatePath : Path; _tree : option Builder }.

(** The constructors [Template(const Path&)] and [Template()]. *)
Definition Template_new (templatePath : Path) : Template :=
  {| _templatePath := templatePath; _tree := None |}.

(** [_parts], the root [MultiPart], or [None] for the null pointer. *)
Definition Template_parts (tpl : Template) : option Part :=
  (fun b => MultiPart (Builder_root (_currentPart b) (_partStack b))) <$> _tree tpl.

(** [Template::parse(std::istream&)] on a template whose [_partStack] is
    empty, as it is after construction. Every directive that lets the loop
    go on takes at least one character from the stream, so the loop ends
    within as many rounds as the source has characters, plus one. *)
Definition Template_parse (tpl : Template) (source : string) : Outcome Template :=
  b ← parse_loop (S (String.length source)) (_templatePath tpl)
        {| _currentPart := []; _partStack := [] |} (istream_of source);
  mret {| _templatePath := _templatePath tpl; _tree := Some b |}.

(** [Template::parse()] *)
Definition Template_parse_file (tpl : Template) : Outcome Template :=
  if File_exists (_templatePath tpl)
  then Template_parse tpl (FileInputStream (_templatePath tpl))
  else Done tpl.

End Parsing.

Section TemplateRendering.

Context `{VM : ValueModel} `{FS : FileSystem}.

(** [Template::render]: [_parts->render(data, out)]. *)
Definition Template_render (includeRender : Path -> Renderer) (tpl : Template)
    : Renderer :=
  fun data out =>
    match Template_parts tpl with
    | Some parts => render includeRender parts data out
    | None => NullDeref
    end.

(** Modelled from the spec: [TemplateCache] is not under src/;
    [TemplateCache::instance()] is null or a cache whose [getTemplate]
    gives a compiled template for a path, possibly a null one, or fails. *)
Variable TemplateCache_instance : option (Path -> Outcome (option Template)).

(** [IncludePart::render], with one unit of [depth] per nested include. *)
Fixpoint IncludePart_render (depth : nat) (path : Path) : Renderer :=
  fun data out =>
    match depth with
    | 0 => Exhausted
    | S depth' =>
        match TemplateCache_instance with
        | None =>
            tpl ← Template_parse_file (Template_new path);
            Template_render (IncludePart_render depth') tpl data out
        | Some getTemplate =>
            cached ← getTemplate path;
            match cached with
            | Some tpl => Template_render (IncludePart_render depth') tpl data out
            | None => NullDeref
            end
        end
    end.

End TemplateRendering.

(** ** A value model and a file system to run examples on *)

(** The names of a dot-separated path. *)
Fixpoint Json_names (path : string) (name : string) : list string :=
  match path with
  | EmptyString => [name]
  | String c rest =>
      if decide (c = "."%char) then name :: Json_names rest ""
      else Json_names rest (push_back name c)
  end.

(** The value reached by following field names from [value]. *)
Fixpoint Json_lookup (names : list string) (value : Var) : Var :=
  match names with
  | [] => value
  | name :: rest =>
      match value with
      | VObject fields =>
          match fields !! name with
          | Some field => Json_lookup rest field
          | None => VEmpty
          end
      | _ => VEmpty
      end
  end.

(** Modelled from the spec: a value model as the spec describes it. A path
    is a dot-separated list of field names ([a.b]); an absent path gives
    the empty value; numeric zero, an empty array or object and boolean
    false convert to false, what else is not empty to true; a string
    converts to itself and a number to its decimal text. The text of an
    object or array, which the spec does not describe, is left empty. *)
Definition Json : ValueModel := {|
  Query_find := fun data path => Json_lookup (Json_names path "") data;
  convert_string := fun value =>
    match value with
    | VString s => s
    | VInt n => pretty n
    | VBool b => if b then "true" else "false"
    | _ => ""
    end;
  convert_bool := fun value =>
    match value with
    | VEmpty => false
    | VBool b => b
    | VInt n => negb (n =? 0)%Z
    | VString s => negb (string_empty s)
    | VObject fields => negb (bool_decide (fields = ∅))
    | VArray elems => negb (bool_decide (length elems = 0))
    end;
  convert_string_VString := fun s => eq_refl
|}.

(** A file system without files, where every path is relative. *)
Definition NoFiles : FileSystem := {|
  Path_isRelative := fun _ => true;
  Path_makeParent := fun path => path;
  Path_resolve := fun parent path => parent +:+ path;
  File_exists := fun _ => false;
  FileInputStream := fun _ => ""
|}.

(** ** The sequence of items of a source text *)

(** What one round of the parse loop adds to the tree: a literal text or a
    directive. *)
Inductive Item : Type :=
| ItemText (text : string)
| ItemCommand (c : Command).

(** An outcome that is not [Done], at another type. *)
Definition Outcome_fail {A B : Type} (o : Outcome A) : Outcome B :=
  match o with
  | Done _ | Exhausted => Exhausted
  | Thrown reason => Thrown reason
  | NullDeref => NullDeref
  end.

(** The reads of [parse_loop] without the tree: the items in source order
    up to the end of the input ([Done]) or the first failing read. *)
Fixpoint scan_loop (fuel : nat) (s : istream) : list Item * Outcome unit :=
  match fuel with
  | 0 => ([], Exhausted)
  | S fuel' =>
      if good s then
        let '(text, s) := readText s in
        let texts := if bool_decide (0 < String.length text)
                     then [ItemText text] else [] in
        if bad s then (texts, Done tt)
        else
          let '(command, s) := readTemplateCommand s in
          if string_empty command then (texts, Done tt)
          else
            let '(_, s) := readWhiteSpace s in
            let '(arguments, s) := readCommandArguments command s in
            match arguments with
            | Done c =>
                let '(closed, s) := closeDirective command s in
                match closed with
                | Done _ =>
                    let '(items, e) := scan_loop fuel' s in
                    ((texts ++ ItemCommand c :: items)%list, e)
                | _ => ((texts ++ [ItemCommand c])%list, Outcome_fail closed)
                end
            | _ => (texts, Outcome_fail arguments)
            end
      else ([], Done tt)
  end.

Definition scan (source : string) : list Item * Outcome unit :=
  scan_loop (S (String.length source)) (istream_of source).

Section Building.

Context `{FS : FileSystem}.

(** The effect of one item on the tree. *)
Definition Builder_item (templatePath : Path) (b : Builder) (item : Item)
    : Outcome Builder :=
  match item with
  | ItemText text => Done (addPart (StringPart text) b)
  | ItemCommand c => Builder_apply templatePath c b
  end.

(** The effect of a sequence of items, up to the first exception. *)
Fixpoint build (templatePath : Path) (items : list Item) (b : Builder)
    : Outcome Builder :=
  match items with
  | [] => Done b
  | item :: rest =>
      b' ← Builder_item templatePath b item;
      build templatePath rest b'
  end.



End Building.

(** ** Block structure *)







(** ** What a render may change in the data *)








(** ** The loop as the specification words it *)

(** For each element in index order: the loop variable set to the element,
    then the body rendered. *)
Definition render_elements (name : string) (body : Renderer)
    (elems : list Var) : Renderer :=
  fun data out =>
    foldl (fun (state : Outcome (Var * string)) (value : Var) =>
             '(data', out') ← state;
             body (Object_set name value data') out')
          (Done (data, out)) elems.

(** ** Reading aids for the scanner *)

(** The stream past the end of its text. *)
Definition at_eof : istream := {| buf := ""; good := false |}.

(** The characters a stream can still deliver. *)
Definition pending (s : istream) : string :=
  if good s then buf s else "".

(** How many characters a stream can still deliver. *)
Definition remaining (s : istream) : nat := String.length (pending s).

(** The character a scanner loop holds when it starts, taken from the
    stream before. *)
Definition bonus (c : option ascii) : nat :=
  match c with Some _ => 1 | None => 0 end.

(** A text without its leading white space. *)
Fixpoint skipSpaces (text : string) : string :=
  match text with
  | String c rest => if Ascii_isSpace c then skipSpaces rest else text
  | EmptyString => ""
  end.

(** A text without one leading carriage return, and without one leading
    line feed. *)
Definition dropCR (text : string) : string :=
  match text with
  | String c rest => if decide (c = "013"%char) then rest else text
  | EmptyString => ""
  end.

Definition dropLF (text : string) : string :=
  match text with
  | String c rest => if decide (c = "010"%char) then rest else text
  | EmptyString => ""
  end.

(** The parts a literal text adds to the tree: none when it is empty. *)
Definition text_parts (text : string) : list Part :=
  if bool_decide (0 < String.length text) then [StringPart text] else [].

(** Whether the directive opener occurs in a text. *)
Definition has_opener (text : string) : Prop :=
  exists before after, text = before +:+ "<?" +:+ after.

(** The same question answered by a run over the text. *)
Fixpoint opener_free (text : string) : bool :=
  match text with
  | String c rest =>
      match rest with
      | String c2 _ =>
          negb (bool_decide (c = "<"%char) && bool_decide (c2 = "?"%char))
          && opener_free rest
      | EmptyString => true
      end
  | EmptyString => true
  end.


(** ** Example data *)

(** An object with the string fields ["0"], ["false"] and [""] and the
    number zero. *)
Definition guard_data : Var :=
  VObject (<["zero" := VString "0"]> (<["no" := VString "false"]>
          (<["n" := VInt 0]> (<["e" := VString ""]> ∅)))).

(** [{"a":"","b":"1"}] *)
Definition ab_data : Var :=
  VObject (<["a" := VString ""]> (<["b" := VString "1"]> ∅)).

(** [{"items":[1,2,3]}] *)
Definition items_data : Var :=
  VObject (<["items" := VArray [VInt 1; VInt 2; VInt 3]]> ∅).

(** [{"x":"A","items":[1,2]}] *)
Definition shadowed_data : Var :=
  VObject (<["x" := VString "A"]> (<["items" := VArray [VInt 1; VInt 2]]> ∅)).

(** An include handler for templates without includes. *)
Definition noInclude : Path -> Renderer := fun _ _ _ => NullDeref.


(** [{"a":"1","items":[1,2]}] *)
Definition open_data : Var :=
  VObject (<["a" := VString "1"]> (<["items" := VArray [VInt 1; VInt 2]]> ∅)).


(** The tree of [<? for x items ?><?= x ?>,<? endfor ?>]. *)
Definition items_loop : Part :=
  LoopPart "x" "items" [EchoPart "x"; StringPart ","].


(** A text between double quotes. *)
Definition quoted (text : string) : string :=
  String quote text +:+ String quote "".

(** The source of the included template [row.tpl]. *)
Definition row_source : string := "[<? for y x.row ?><?= y ?><? endfor ?>]".


(** A file system that holds [row.tpl] and nothing else. *)
Definition RowFiles : FileSystem := {|
  Path_isRelative := fun _ => true;
  Path_makeParent := fun _ => "";
  Path_resolve := fun parent path => parent +:+ path;
  File_exists := fun path => bool_decide (path = "row.tpl");
  FileInputStream := fun path =>
    if decide (path = "row.tpl") then row_source else ""
|}.



(** ** Aids for stating further properties *)

(** Whether every character of a text satisfies a test. *)
Fixpoint string_forall (test : ascii -> bool) (text : string) : bool :=
  match text with
  | String c rest => test c && string_forall test rest
  | EmptyString => true
  end.

(** Whether a text is empty or begins with a character that satisfies a
    test. *)
Definition ends_or_begins (test : ascii -> bool) (text : string) : bool :=
  match text with
  | String c _ => test c
  | EmptyString => true
  end.

(** A character that is no white space. *)
Definition no_space (c : ascii) : bool := negb (Ascii_isSpace c).

(** A character that is neither white space nor a question mark. *)
Definition token_char (c : ascii) : bool :=
  no_space c && negb (bool_decide (c = "?"%char)).

(** A query token: not empty, without white space and without a question
    mark. *)
Definition query_token (q : string) : bool :=
  negb (string_empty q) && string_forall token_char q.

(** Whether a text begins with the directive closer. *)
Definition begins_closer (text : string) : bool :=
  match text with
  | String c (String c2 _) =>
      bool_decide (c = "?"%char) && bool_decide (c2 = ">"%char)
  | _ => false
  end.

(** Whether no directive closer begins inside the word [w] when [tail]
    follows it. *)
Fixpoint no_closer_in (w tail : string) : bool :=
  match w with
  | String c w' =>
      negb (begins_closer (String c (w' +:+ tail))) && no_closer_in w' tail
  | EmptyString => true
  end.

(** A character that is no double quote. *)
Definition no_quote (c : ascii) : bool := negb (bool_decide (c = quote)).

(** A text without its first character. *)
Definition drop_first (text : string) : string :=
  match text with
  | String _ rest => rest
  | EmptyString => ""
  end.

(** How [readQuery] ends on what follows the word it read: at the end of
    the input, before a directive closer, which stays in the stream, or
    at a white-space character, which is taken from the stream. *)
Definition query_end (tail left : string) : Prop :=
  (tail = "" /\ left = "")
  \/ (begins_closer tail = true /\ left = tail)
  \/ (exists sp, tail = String sp left /\ Ascii_isSpace sp = true).

(** The command words [Template::parse] knows. *)
Definition keywords : list string :=
  [ "echo"; "for"; "else"; "elsif"; "elif"; "endfor"; "endif"; "if";
    "ifexist"; "include" ].

(** The command words whose one argument is a query. *)
Definition query_keywords : list string :=
  [ "echo"; "elsif"; "elif"; "if"; "ifexist" ].

(** A renderer that only appends to the output: what it does to the data
    and what it writes do not depend on what the output holds already. *)
Definition appends (r : Renderer) : Prop :=
  forall data out,
    r data out
    = (fun '(data', written) => (data', out +:+ written)) <$> r data "".

(** A context that holds nothing but fields of another one, with their
    values. *)
Definition within (data' data : Var) : Prop :=
  match data with
  | VObject fields => exists fields', data' = VObject fields' /\ fields' ⊆ fields
  | _ => data' = data
  end.

(** A renderer that leaves of the data a part of what it was given. *)
Definition shrinks (r : Renderer) : Prop :=
  forall data out data' out',
    r data out = Done (data', out') -> within data' data.

(** ** Directives written out *)

(** The command word of a directive. *)
Definition keyword_of (c : Command) : string :=
  match c with
  | CmdEcho _ => "echo"
  | CmdFor _ _ => "for"
  | CmdElse => "else"
  | CmdElsif _ => "elsif"
  | CmdEndfor => "endfor"
  | CmdEndif => "endif"
  | CmdIf _ => "if"
  | CmdIfexist _ => "ifexist"
  | CmdInclude _ => "include"
  end.

(** The arguments of a directive, each followed by a space. *)
Definition arguments_of (c : Command) : string :=
  match c with
  | CmdEcho query | CmdElsif query | CmdIf query | CmdIfexist query =>
      query +:+ " "
  | CmdFor loopVariable query => loopVariable +:+ " " +:+ query +:+ " "
  | CmdInclude filename => quoted filename +:+ " "
  | CmdElse | CmdEndfor | CmdEndif => ""
  end.

(** A directive in the source form [<? command arguments ?>]. *)
Definition unparse_command (c : Command) : string :=
  "<? " +:+ keyword_of c +:+ " " +:+ arguments_of c +:+ "?>".

Definition unparse_item (item : Item) : string :=
  match item with
  | ItemText text => text
  | ItemCommand c => unparse_command c
  end.

(** A sequence of items as a source text. *)
Fixpoint unparse (items : list Item) : string :=
  match items with
  | [] => ""
  | item :: rest => unparse_item item +:+ unparse rest
  end.

(** A loop variable: not empty and without white space. *)
Definition word_token (w : string) : bool :=
  negb (string_empty w) && string_forall no_space w.

(** A file name between quotes: not empty and without a double quote. *)
Definition name_token (f : string) : bool :=
  negb (string_empty f) && string_forall no_quote f.

(** A directive whose arguments are tokens. *)
Definition command_ok (c : Command) : bool :=
  match c with
  | CmdEcho query | CmdElsif query | CmdIf query | CmdIfexist query =>
      query_token query
  | CmdFor loopVariable query => word_token loopVariable && query_token query
  | CmdInclude filename => name_token filename
  | CmdElse | CmdEndfor | CmdEndif => true
  end.

(** Whether a text begins with a carriage return or a line feed. *)
Definition begins_newline (text : string) : bool :=
  match text with
  | String c _ => bool_decide (c = "013"%char) || bool_decide (c = "010"%char)
  | EmptyString => false
  end.

(** Whether the closer of a directive takes a following line end with it:
    every command but [echo]. *)
Definition swallows_newline (c : Command) : bool :=
  negb (bool_decide (keyword_of c = "echo")).

(** The item sequences that a source text stands for without loss: the
    arguments are tokens, a text is not empty, holds no opener, does not
    follow another text and does not begin with a line end that the
    directive before it would take. [swallows] tells whether the items
    follow such a directive. *)
Fixpoint printable (swallows : bool) (items : list Item) : bool :=
  match items with
  | [] => true
  | ItemText text :: rest =>
      negb (string_empty text) && opener_free text
      && negb (swallows && begins_newline text)
      && match rest with ItemText _ :: _ => false | _ => true end
      && printable false rest
  | ItemCommand c :: rest =>
      command_ok c && printable (swallows_newline c) rest
  end.

(** A text written a number of times in a row. *)
Fixpoint repeat_text (n : nat) (text : string) : string :=
  match n with
  | 0 => ""
  | S n' => text +:+ repeat_text n' text
  end.

(** The source of a template that includes itself. *)
Definition self_source : string :=
  "<? include " +:+ quoted "self.tpl" +:+ " ?>".

(** A file system that holds [self.tpl] and nothing else. *)
Definition SelfFiles : FileSystem := {|
  Path_isRelative := fun _ => false;
  Path_makeParent := fun _ => "";
  Path_resolve := fun parent path => parent +:+ path;
  File_exists := fun path => bool_decide (path = "self.tpl");
  FileInputStream := fun _ => self_source
|}.

(** ** The shape of a tree built by the parser *)

(** A guard whose query, if it has one, is not empty. *)
Definition guard_ok (q : LogicQuery) : bool :=
  match q with
  | LogicValueQuery queryString | LogicExistQuery queryString =>
      negb (string_empty queryString)
  | LogicElseQuery => true
  end.

(** A tree in which no text, query or loop variable is empty and every
    [LogicPart] has exactly one body for each guard. *)
Fixpoint well_built (p : Part) : bool :=
  match p with
  | StringPart content => negb (string_empty content)
  | MultiPart parts => forallb well_built parts
  | EchoPart query => negb (string_empty query)
  | LogicPart queries parts =>
      bool_decide (length queries = length parts)
      && forallb guard_ok queries && forallb well_built parts
  | LoopPart name query parts =>
      negb (string_empty name) && negb (string_empty query)
      && forallb well_built parts
  | IncludePart _ => true
  end.

(** An open block on the stack: a [LogicPart] has one guard more than it
    has closed branches, the branch being filled is the missing one. *)
Definition Frame_ok (f : Frame) : bool :=
  forallb well_built (enclosing f)
  && match block f with
     | LogicBlock queries branches =>
         bool_decide (length queries = S (length branches))
         && forallb guard_ok queries && forallb well_built branches
     | LoopBlock name query =>
         negb (string_empty name) && negb (string_empty query)
     end.

Definition Builder_ok (b : Builder) : bool :=
  forallb well_built (_currentPart b) && forallb Frame_ok (_partStack b).

(** A directive whose query and loop variable are not empty. *)
Definition arguments_ok (c : Command) : bool :=
  match c with
  | CmdEcho query | CmdElsif query | CmdIf query | CmdIfexist query =>
      negb (string_empty query)
  | CmdFor loopVariable query =>
      negb (string_empty loopVariable) && negb (string_empty query)
  | CmdInclude filename => negb (string_empty filename)
  | CmdElse | CmdEndfor | CmdEndif => true
  end.
(** * Facts about rendering *)

Section RenderFacts.

Context `{VM : ValueModel}.
Variable includeRender : Path -> Renderer.

Lemma Outcome_bind_ret {A} (m : Outcome (A * string)) :
  ('(a, o) ← m; Done (a, o)) = m.
Proof. destruct m as [[a o]| | |]; reflexivity. Qed.

(** The loop of [LogicPart::render] stops at the first guard that holds and
    has a body. *)
Lemma LogicPart_loop_first before q after parts count p data out :
  Forall (fun g => LogicQuery_apply g data = false) before ->
  LogicQuery_apply q data = true ->
  parts !! (count + length before) = Some p ->
  LogicPart_loop (before ++ q :: after) parts count data out = p data out.
Proof.
  intros Hbefore Hq. revert count.
  induction Hbefore as [|g before Hg _ IH]; intros count Hp; simpl.
  - rewrite Nat.add_0_r in Hp. rewrite Hq, Hp.
    rewrite bool_decide_eq_true_2 by (eapply lookup_lt_Some; eauto).
    reflexivity.
  - rewrite Hg. simpl. apply IH.
    rewrite <- Hp. f_equal. simpl. lia.
Qed.

Lemma LogicPart_loop_none queries parts count data out :
  Forall (fun g => LogicQuery_apply g data = false) queries ->
  LogicPart_loop queries parts count data out = Done (data, out).
Proof.
  intros H. revert count.
  induction H as [|g queries Hg _ IH]; intros count; simpl; [reflexivity|].
  rewrite Hg. simpl. apply IH.
Qed.

Lemma render_elements_from name body elems (state : Outcome (Var * string)) :
  foldl (fun (state : Outcome (Var * string)) (value : Var) =>
           '(data', out') ← state; body (Object_set name value data') out')
        state elems
  = '(data, out) ← state; LoopPart_loop name body elems data out.
Proof.
  revert state.
  induction elems as [|value rest IH]; intros state; simpl.
  - symmetry. apply Outcome_bind_ret.
  - rewrite IH. destruct state as [[data out]| | |]; reflexivity.
Qed.

Lemma LoopPart_loop_elements name body elems data out :
  LoopPart_loop name body elems data out
  = render_elements name body elems data out.
Proof. unfold render_elements. rewrite render_elements_from. reflexivity. Qed.

End RenderFacts.

(** * Facts about the data a render leaves *)

Lemma Part_all_ind (P : Part -> Prop) :
  (forall content, P (StringPart content)) ->
  (forall parts, Forall P parts -> P (MultiPart parts)) ->
  (forall query, P (EchoPart query)) ->
  (forall queries parts, Forall P parts -> P (LogicPart queries parts)) ->
  (forall name query parts, Forall P parts -> P (LoopPart name query parts)) ->
  (forall path, P (IncludePart path)) ->
  forall p, P p.
Proof.
  intros Hstring Hmulti Hecho Hlogic Hloop Hinclude.
  fix IH 1.
  intros [content|parts|query|queries parts|name query parts|path].
  - apply Hstring.
  - apply Hmulti. induction parts as [|p parts IHparts]; constructor; [apply IH | apply IHparts].
  - apply Hecho.
  - apply Hlogic. induction parts as [|p parts IHparts]; constructor; [apply IH | apply IHparts].
  - apply Hloop. induction parts as [|p parts IHparts]; constructor; [apply IH | apply IHparts].
  - apply Hinclude.
Qed.








Section Frame.
Context `{VM : ValueModel}.









End Frame.

(** * Facts about parsing *)

Section BuildFacts.
Context `{FS : FileSystem}.
Variable templatePath : Path.


Lemma parse_loop_scan fuel b s :
  parse_loop fuel templatePath b s
  = (let '(items, e) := scan_loop fuel s in
     b' ← build templatePath items b; _ ← e; mret b').
Proof.
  revert b s. induction fuel as [|fuel IH]; intros b s; simpl; [reflexivity|].
  destruct (good s); [|reflexivity].
  destruct (readText s) as [text s1].
  destruct (readTemplateCommand s1) as [command s2].
  destruct (string_empty command).
  { destruct (bool_decide _); reflexivity. }
  destruct (readWhiteSpace s2) as [[] s3].
  destruct (readCommandArguments command s3) as [arguments s4].
  destruct arguments as [c|reason| |]; simpl;
    try (destruct (bool_decide _); reflexivity).
  destruct (closeDirective command s4) as [closed s5].
  assert (Hstep : forall b0,
    (b1 ← Builder_apply templatePath c b0;
     _ ← closed; parse_loop fuel templatePath b1 s5)
    = (let '(items, e) :=
         match closed with
         | Done _ => let '(items, e) := scan_loop fuel s5 in (ItemCommand c :: items, e)
         | _ => ([ItemCommand c], Outcome_fail closed)
         end in
       b' ← build templatePath items b0; _ ← e; mret b')).
  { intros b0.
    destruct (Builder_apply templatePath c b0) as [b1| | |] eqn:E;
      destruct closed as [[]| | |]; simpl; rewrite ?IH;
      try destruct (scan_loop fuel s5) as [items e]; simpl; rewrite E;
      reflexivity. }
  destruct (bool_decide _); simpl; rewrite Hstep;
    destruct closed as [[]| | |]; try reflexivity;
    destruct (scan_loop fuel s5) as [items e]; reflexivity.
Qed.






End BuildFacts.

(** * Facts about the scanner *)

Lemma append_String c s t : String c s +:+ t = String c (s +:+ t).
Proof. reflexivity. Qed.

Lemma append_empty_l s : "" +:+ s = s.
Proof. reflexivity. Qed.

Lemma append_empty_r s : s +:+ "" = s.
Proof. induction s as [|c s IH]; [reflexivity|]. rewrite append_String, IH. reflexivity. Qed.

Lemma append_assoc s t u : (s +:+ t) +:+ u = s +:+ (t +:+ u).
Proof.
  induction s as [|c s IH]; [reflexivity|].
  rewrite !append_String, IH. reflexivity.
Qed.

Lemma push_back_append text c rest :
  push_back text c +:+ rest = text +:+ String c rest.
Proof. unfold push_back. rewrite append_assoc. reflexivity. Qed.

Lemma has_opener_here rest : has_opener (String "<" (String "?" rest)).
Proof. exists "", rest. reflexivity. Qed.

Lemma has_opener_later c rest : has_opener rest -> has_opener (String c rest).
Proof.
  intros (before & after & ->). exists (String c before), after. reflexivity.
Qed.

Lemma opener_free_correct text : opener_free text = true -> ~ has_opener text.
Proof.
  intros Hfree (before & after & E). revert text Hfree E.
  induction before as [|c before IH]; intros text Hfree E; subst text.
  - discriminate Hfree.
  - rewrite append_String in Hfree. simpl in Hfree.
    destruct (before +:+ "<?" +:+ after) as [|c2 rest] eqn:E.
    + destruct before; discriminate E.
    + apply andb_prop in Hfree. destruct Hfree as [_ Hfree].
      eapply IH; [exact Hfree | reflexivity].
Qed.

Lemma readText_loop_step fuel ch text s :
  readText_loop (S fuel) (Some ch) text s
  = (opener ← (if decide (ch = "<"%char)
               then p ← peek; mret (bool_decide (p = Some "?"%char))
               else mret false);
     if opener : bool then _ ← get; mret text
     else c' ← get; readText_loop fuel c' (push_back text ch)) s.
Proof. reflexivity. Qed.

Ltac scan_step :=
  unfold mbind, Scan_bind, mret, Scan_ret; simpl.

Lemma readText_loop_all rest :
  forall c fuel text,
    String.length rest < fuel ->
    ~ has_opener (String c rest) ->
    readText_loop fuel (Some c) text {| buf := rest; good := true |}
    = (text +:+ String c rest, at_eof).
Proof.
  induction rest as [|c2 rest IH]; intros c fuel text Hfuel Hfree;
    (destruct fuel as [|fuel]; [simpl in Hfuel; lia|]).
  - simpl. destruct (decide (c = "<"%char)); simpl.
    + destruct fuel; reflexivity.
    + destruct fuel; reflexivity.
  - simpl in Hfuel.
    assert (Hrest : ~ has_opener (String c2 rest)).
    { intros H. apply Hfree, has_opener_later, H. }
    assert (Hnext : readText_loop fuel (Some c2) (push_back text c)
                      {| buf := rest; good := true |}
                    = (text +:+ String c (String c2 rest), at_eof)).
    { rewrite IH by (assumption || lia). rewrite push_back_append. reflexivity. }
    rewrite readText_loop_step.
    destruct (decide (c = "<"%char)) as [->|Hc]; scan_step.
    + destruct (decide (c2 = "?"%char)) as [->|Hc2].
      * exfalso. apply Hfree, has_opener_here.
      * rewrite bool_decide_eq_false_2 by congruence. exact Hnext.
    + exact Hnext.
Qed.

Lemma readText_all text :
  ~ has_opener text -> readText (istream_of text) = (text, at_eof).
Proof.
  intros Hfree. destruct text as [|c rest]; [reflexivity|].
  unfold readText. cbn -[readText_loop].
  apply (readText_loop_all rest c _ ""); [lia | assumption].
Qed.

Lemma readWhiteSpace_loop_pending fuel :
  forall s, String.length (buf s) < fuel ->
    pending (readWhiteSpace_loop fuel s).2 = skipSpaces (pending s).
Proof.
  induction fuel as [|fuel IH]; intros [text ok] Hfuel; simpl in Hfuel; [lia|].
  destruct ok; [|reflexivity].
  destruct text as [|c rest]; [reflexivity|].
  simpl. scan_step.
  destruct (Ascii_isSpace c) eqn:Hc; simpl.
  - rewrite IH by (simpl in *; lia). reflexivity.
  - reflexivity.
Qed.

Lemma readWhiteSpace_pending s :
  pending (readWhiteSpace s).2 = skipSpaces (pending s).
Proof. apply readWhiteSpace_loop_pending. lia. Qed.

Lemma pending_String s c rest :
  pending s = String c rest -> s = {| buf := String c rest; good := true |}.
Proof. destruct s as [text []]; unfold pending; simpl; congruence. Qed.


Lemma closeDirective_echo s rest :
  skipSpaces (pending s) = "?>" +:+ rest ->
  exists s', closeDirective "echo" s = (Done tt, s') /\ pending s' = rest.
Proof.
  intros Hyes. unfold closeDirective. scan_step.
  pose proof (readWhiteSpace_pending s) as Hp.
  destruct (readWhiteSpace s) as [[] s1]. simpl in Hp. rewrite Hyes in Hp.
  apply pending_String in Hp. subst s1. simpl.
  eexists. split; reflexivity.
Qed.

Lemma closeDirective_swallow command s rest :
  command <> "echo" ->
  skipSpaces (pending s) = "?>" +:+ rest ->
  exists s', closeDirective command s = (Done tt, s')
             /\ pending s' = dropLF (dropCR rest).
Proof.
  intros Hcmd Hyes. unfold closeDirective. scan_step.
  pose proof (readWhiteSpace_pending s) as Hp.
  destruct (readWhiteSpace s) as [[] s1]. simpl in Hp. rewrite Hyes in Hp.
  apply pending_String in Hp. subst s1. simpl.
  destruct (decide (command = "echo")) as [|_]; [contradiction|].
  destruct rest as [|c rest]; simpl.
  { eexists. split; reflexivity. }
  destruct (decide (c = "013"%char)) as [->|Hcr]; simpl.
  - destruct rest as [|c2 rest]; simpl.
    { eexists. split; reflexivity. }
    destruct (decide (c2 = "010"%char)) as [->|Hlf]; simpl.
    + eexists. split; reflexivity.
    + destruct (decide (Some c2 = Some "010"%char)) as [[= ?]|]; [contradiction|].
      eexists. split; reflexivity.
  - destruct (decide (Some c = Some "013"%char)) as [[= ?]|]; [contradiction|].
    simpl. destruct (decide (c = "010"%char)) as [->|Hlf]; simpl.
    + eexists. split; reflexivity.
    + destruct (decide (Some c = Some "010"%char)) as [[= ?]|]; [contradiction|].
      eexists. split; reflexivity.
Qed.

Lemma readCommandArguments_outcome command s :
  (exists c, (readCommandArguments command s).1 = Done c)
  \/ (exists reason, (readCommandArguments command s).1 = Thrown reason).
Proof.
  unfold readCommandArguments.
  repeat (case_decide || case_bool_decide || scan_step
          || match goal with
             | |- context [readQuery ?s] => destruct (readQuery s)
             | |- context [readWord ?s] => destruct (readWord s)
             | |- context [readString ?s] => destruct (readString s)
             | |- context [readWhiteSpace ?s] => destruct (readWhiteSpace s)
             | |- context [string_empty ?x] => destruct (string_empty x)
             end); eauto.
Qed.

Lemma Builder_apply_outcome `{FS : FileSystem} templatePath c b :
  (exists b', Builder_apply templatePath c b = Done b')
  \/ (exists reason, Builder_apply templatePath c b = Thrown reason).
Proof.
  destruct c; simpl; eauto;
    destruct (_partStack b) as [|[e [qs bs|n q]] stack]; simpl; eauto.
Qed.


(** ** The bounds of the loops are never reached *)

Lemma remaining_buf s : remaining s <= String.length (buf s).
Proof. destruct s as [text []]; unfold remaining, pending; simpl; lia. Qed.

Ltac stream_cases s :=
  let text := fresh "text" in
  let c := fresh "c" in
  destruct s as [[|c text] []]; unfold remaining, pending; simpl.

Lemma readText_loop_fuel fuel :
  forall fuel' c text s,
    remaining s < fuel -> remaining s < fuel' ->
    readText_loop fuel c text s = readText_loop fuel' c text s.
Proof.
  induction fuel as [|fuel IH]; intros fuel' c text s H H'; [lia|].
  destruct fuel' as [|fuel']; [lia|].
  destruct c as [ch|]; [|reflexivity].
  rewrite !readText_loop_step.
  revert H H'. stream_cases s; intros H H'; scan_step;
    destruct (decide (ch = "<"%char)); simpl;
    try destruct (bool_decide _); simpl;
    try reflexivity; try (destruct fuel, fuel'; reflexivity);
    apply IH; unfold remaining, pending; simpl; lia.
Qed.

Lemma readWhiteSpace_loop_fuel fuel :
  forall fuel' s,
    remaining s < fuel -> remaining s < fuel' ->
    readWhiteSpace_loop fuel s = readWhiteSpace_loop fuel' s.
Proof.
  induction fuel as [|fuel IH]; intros fuel' s H H'; [lia|].
  destruct fuel' as [|fuel']; [lia|].
  revert H H'. stream_cases s; intros H H'; simpl; scan_step; try reflexivity.
  destruct (Ascii_isSpace c); [|reflexivity].
  apply IH; unfold remaining, pending; simpl; lia.
Qed.

Lemma readTemplateCommand_loop_step fuel ch command s :
  readTemplateCommand_loop (S fuel) (Some ch) command s
  = (if Ascii_isSpace ch then mret command
     else
       closer ← (if decide (ch = "?"%char)
                 then p ← peek; mret (bool_decide (p = Some ">"%char))
                 else mret false);
       if closer : bool then _ ← putback ch; mret command
       else if bool_decide (ch = "="%char)
               && bool_decide (String.length command = 0)
       then mret "echo"
       else c' ← get; readTemplateCommand_loop fuel c' (push_back command ch)) s.
Proof. reflexivity. Qed.

Lemma readTemplateCommand_loop_fuel fuel :
  forall fuel' c command s,
    remaining s < fuel -> remaining s < fuel' ->
    readTemplateCommand_loop fuel c command s
    = readTemplateCommand_loop fuel' c command s.
Proof.
  induction fuel as [|fuel IH]; intros fuel' c command s H H'; [lia|].
  destruct fuel' as [|fuel']; [lia|].
  destruct c as [ch|]; [|reflexivity].
  rewrite !readTemplateCommand_loop_step.
  destruct (Ascii_isSpace ch); [reflexivity|].
  revert H H'. stream_cases s; intros H H'; scan_step;
    destruct (decide (ch = "?"%char)); simpl;
    try destruct (bool_decide (_ = Some _)); simpl;
    try destruct (bool_decide (ch = "="%char) && _); simpl;
    try reflexivity; try (destruct fuel, fuel'; reflexivity);
    apply IH; unfold remaining, pending; simpl; lia.
Qed.

Lemma readWord_loop_fuel fuel :
  forall fuel' word s,
    remaining s < fuel -> remaining s < fuel' ->
    readWord_loop fuel word s = readWord_loop fuel' word s.
Proof.
  induction fuel as [|fuel IH]; intros fuel' word s H H'; [lia|].
  destruct fuel' as [|fuel']; [lia|].
  revert H H'. stream_cases s; intros H H'; simpl; scan_step; try reflexivity.
  destruct (Ascii_isSpace c); [reflexivity|]. simpl.
  apply IH; unfold remaining, pending; simpl; lia.
Qed.

Lemma readQuery_loop_fuel fuel :
  forall fuel' word s,
    remaining s < fuel -> remaining s < fuel' ->
    readQuery_loop fuel word s = readQuery_loop fuel' word s.
Proof.
  induction fuel as [|fuel IH]; intros fuel' word s H H'; [lia|].
  destruct fuel' as [|fuel']; [lia|].
  revert H H'. stream_cases s; intros H H'; simpl; scan_step; try reflexivity.
  destruct (decide (c = "?"%char)); simpl.
  - destruct text as [|c2 text]; simpl.
    + destruct (Ascii_isSpace c); [reflexivity|].
      apply IH; unfold remaining, pending; simpl; lia.
    + destruct (bool_decide (Some c2 = Some ">"%char)); [reflexivity|].
      destruct (Ascii_isSpace c); [reflexivity|].
      apply IH; unfold remaining, pending; simpl in *; lia.
  - destruct (Ascii_isSpace c); [reflexivity|].
    apply IH; unfold remaining, pending; simpl; lia.
Qed.

Lemma readString_loop_fuel fuel :
  forall fuel' str s,
    remaining s < fuel -> remaining s < fuel' ->
    readString_loop fuel str s = readString_loop fuel' str s.
Proof.
  induction fuel as [|fuel IH]; intros fuel' str s H H'; [lia|].
  destruct fuel' as [|fuel']; [lia|].
  revert H H'. stream_cases s; intros H H'; simpl; scan_step; try reflexivity.
  destruct (decide (c = quote)); [reflexivity|].
  apply IH; unfold remaining, pending; simpl; lia.
Qed.

(** ** The scanner never gives characters back *)

Lemma readText_loop_remaining fuel :
  forall c text s, remaining (readText_loop fuel c text s).2 <= remaining s.
Proof.
  induction fuel as [|fuel IH]; intros c text s; [destruct c; simpl; lia|].
  destruct c as [ch|]; [|simpl; lia].
  rewrite readText_loop_step.
  stream_cases s; scan_step;
    destruct (decide (ch = "<"%char)); simpl;
    try destruct (bool_decide _); simpl; try lia;
    try (etransitivity; [apply IH|]; unfold remaining, pending; simpl; lia).
Qed.

Lemma readText_remaining s : remaining (readText s).2 <= remaining s.
Proof.
  unfold readText. generalize (S (String.length (buf s))). intros fuel.
  scan_step.
  destruct s as [[|c text] []]; simpl;
    try (unfold remaining, pending; simpl; lia);
    (etransitivity; [apply readText_loop_remaining|]);
    unfold remaining, pending; simpl; lia.
Qed.

Lemma skipSpaces_length text :
  String.length (skipSpaces text) <= String.length text.
Proof.
  induction text as [|c text IH]; simpl; [lia|].
  destruct (Ascii_isSpace c); simpl; lia.
Qed.

Lemma readWhiteSpace_remaining s : remaining (readWhiteSpace s).2 <= remaining s.
Proof. unfold remaining. rewrite readWhiteSpace_pending. apply skipSpaces_length. Qed.

Lemma readTemplateCommand_loop_remaining fuel :
  forall c command s,
    let r := readTemplateCommand_loop fuel c command s in
    remaining r.2 <= remaining s + bonus c
    /\ (r.1 <> command -> remaining r.2 < remaining s + bonus c).
Proof.
  induction fuel as [|fuel IH]; intros c command s.
  { destruct c; simpl; split; (lia || congruence). }
  destruct c as [ch|]; [|simpl; split; (lia || congruence)].
  cbv zeta. rewrite readTemplateCommand_loop_step. unfold bonus.
  destruct (Ascii_isSpace ch); [simpl; split; lia|].
  stream_cases s; scan_step;
    destruct (decide (ch = "?"%char)); simpl;
    try destruct (bool_decide (_ = Some _)); simpl;
    try destruct (bool_decide (ch = "="%char) && _); simpl;
    try (split; (lia || congruence));
    match goal with
    | |- context [readTemplateCommand_loop fuel ?c' ?cmd ?s'] =>
        destruct (IH c' cmd s') as [Hle _];
        unfold remaining, pending, bonus in Hle; simpl in Hle; split; lia
    end.
Qed.

Lemma readTemplateCommand_remaining s :
  remaining (readTemplateCommand s).2 <= remaining s
  /\ ((readTemplateCommand s).1 <> "" ->
      remaining (readTemplateCommand s).2 < remaining s).
Proof.
  unfold readTemplateCommand. generalize (S (String.length (buf s))).
  intros fuel. scan_step.
  pose proof (readWhiteSpace_remaining s) as Hws.
  destruct (readWhiteSpace s) as [[] s1]. simpl in Hws.
  revert Hws. stream_cases s1; intros Hws;
    match goal with
    | |- context [readTemplateCommand_loop fuel ?c' ?cmd ?s'] =>
        destruct (readTemplateCommand_loop_remaining fuel c' cmd s') as [Hle Hlt];
        unfold remaining, pending, bonus in Hle, Hlt; simpl in Hle, Hlt
    end; split; try lia; intros Hne; specialize (Hlt Hne); lia.
Qed.

Lemma readWord_loop_remaining fuel :
  forall word s, remaining (readWord_loop fuel word s).2 <= remaining s.
Proof.
  induction fuel as [|fuel IH]; intros word s; [simpl; lia|].
  stream_cases s; scan_step; try lia.
  destruct (Ascii_isSpace c); simpl; [lia|].
  etransitivity; [apply IH|]. unfold remaining, pending; simpl; lia.
Qed.

Lemma readWord_remaining s : remaining (readWord s).2 <= remaining s.
Proof. apply readWord_loop_remaining. Qed.

Lemma readQuery_loop_remaining fuel :
  forall word s, remaining (readQuery_loop fuel word s).2 <= remaining s.
Proof.
  induction fuel as [|fuel IH]; intros word s; [simpl; lia|].
  stream_cases s; scan_step; try lia.
  destruct (decide (c = "?"%char)); simpl.
  - destruct text as [|c2 text]; simpl.
    + destruct (Ascii_isSpace c); simpl; [lia|].
      etransitivity; [apply IH|]. unfold remaining, pending; simpl; lia.
    + destruct (bool_decide (Some c2 = Some ">"%char)); simpl; [lia|].
      destruct (Ascii_isSpace c); simpl; [lia|].
      etransitivity; [apply IH|]. unfold remaining, pending; simpl; lia.
  - destruct (Ascii_isSpace c); simpl; [lia|].
    etransitivity; [apply IH|]. unfold remaining, pending; simpl; lia.
Qed.

Lemma readQuery_remaining s : remaining (readQuery s).2 <= remaining s.
Proof. apply readQuery_loop_remaining. Qed.

Lemma readString_loop_remaining fuel :
  forall str s, remaining (readString_loop fuel str s).2 <= remaining s.
Proof.
  induction fuel as [|fuel IH]; intros str s; [simpl; lia|].
  stream_cases s; scan_step; try lia.
  destruct (decide (c = quote)); simpl; [lia|].
  etransitivity; [apply IH|]. unfold remaining, pending; simpl; lia.
Qed.

Lemma readString_remaining s : remaining (readString s).2 <= remaining s.
Proof.
  unfold readString. generalize (S (String.length (buf s))). intros fuel.
  scan_step.
  destruct s as [[|c text] []]; simpl;
    try (unfold remaining, pending; simpl; lia);
    destruct (decide (_ = Some quote)); simpl;
    try (unfold remaining, pending; simpl; lia);
    (etransitivity; [apply readString_loop_remaining|]);
    unfold remaining, pending; simpl; lia.
Qed.

Lemma readCommandArguments_remaining command s :
  remaining (readCommandArguments command s).2 <= remaining s.
Proof.
  unfold readCommandArguments.
  pose proof readQuery_remaining as HQ.
  pose proof readWord_remaining as HW.
  pose proof readString_remaining as HS.
  pose proof readWhiteSpace_remaining as HWS.
  repeat (case_decide || case_bool_decide || scan_step
          || match goal with
             | |- context [readQuery ?s] =>
                 let H := fresh in
                 pose proof (HQ s) as H;
                 destruct (readQuery s); simpl in H
             | |- context [readWord ?s] =>
                 let H := fresh in
                 pose proof (HW s) as H;
                 destruct (readWord s); simpl in H
             | |- context [readString ?s] =>
                 let H := fresh in
                 pose proof (HS s) as H;
                 destruct (readString s); simpl in H
             | |- context [readWhiteSpace ?s] =>
                 let H := fresh in
                 pose proof (HWS s) as H;
                 destruct (readWhiteSpace s); simpl in H
             | |- context [string_empty ?x] => destruct (string_empty x)
             end); simpl; lia.
Qed.

Lemma closeDirective_remaining command s :
  remaining (closeDirective command s).2 <= remaining s.
Proof.
  unfold closeDirective. scan_step.
  pose proof (readWhiteSpace_remaining s) as Hws.
  destruct (readWhiteSpace s) as [[] s1]. simpl in Hws.
  revert Hws. stream_cases s1; intros Hws; try lia.
  destruct (decide (Some c = Some "?"%char)); simpl; [|lia].
  destruct text as [|c2 text]; simpl in *; [lia|].
  destruct (bool_decide (Some c2 = Some ">"%char)); simpl; [|lia].
  destruct (decide (command = "echo")); simpl; [lia|].
  destruct text as [|c3 text]; simpl in *; [lia|].
  destruct (decide (Some c3 = Some "013"%char)); simpl.
  - destruct text as [|c4 text]; simpl in *; [lia|].
    destruct (decide (Some c4 = Some "010"%char)); simpl; lia.
  - destruct (decide (Some c3 = Some "010"%char)); simpl; lia.
Qed.

Lemma closeDirective_outcome command s :
  (closeDirective command s).1 = Done tt
  \/ (closeDirective command s).1 = Thrown "Missing ?>".
Proof.
  unfold closeDirective. scan_step.
  destruct (readWhiteSpace s) as [[] s1].
  destruct s1 as [[|c text] []]; simpl; auto.
  destruct (decide (Some c = Some "?"%char)); simpl; auto.
  destruct text as [|c2 text]; simpl; auto.
  destruct (bool_decide (Some c2 = Some ">"%char)); simpl; auto.
  destruct (decide (command = "echo")); simpl; auto.
  destruct text as [|c3 text]; simpl; auto.
  destruct (decide (Some c3 = Some "013"%char)); simpl.
  - destruct text as [|c4 text]; simpl; auto.
    destruct (decide (Some c4 = Some "010"%char)); simpl; auto.
  - destruct (decide (Some c3 = Some "010"%char)); simpl; auto.
Qed.

Section ParseFuel.
Context `{FS : FileSystem}.
Lemma string_empty_false command : string_empty command = false -> command <> "".
Proof. destruct command; [discriminate|congruence]. Qed.

(** One round of the parse loop that goes on leaves fewer characters. *)
Lemma parse_round_remaining s :
  let s1 := (readText s).2 in
  let command := (readTemplateCommand s1).1 in
  let s2 := (readTemplateCommand s1).2 in
  let s3 := (readWhiteSpace s2).2 in
  let s4 := (readCommandArguments command s3).2 in
  let s5 := (closeDirective command s4).2 in
  string_empty command = false ->
  remaining s5 < remaining s.
Proof.
  intros s1 command s2 s3 s4 s5 Hcommand.
  pose proof (readText_remaining s).
  destruct (readTemplateCommand_remaining s1) as [_ Hlt].
  specialize (Hlt (string_empty_false _ Hcommand)).
  pose proof (readWhiteSpace_remaining s2).
  pose proof (readCommandArguments_remaining command s3).
  pose proof (closeDirective_remaining command s4).
  subst s1 command s2 s3 s4 s5. lia.
Qed.

Lemma parse_loop_returns fuel templatePath :
  forall b s,
    remaining s < fuel ->
    (exists b', parse_loop fuel templatePath b s = Done b')
    \/ (exists reason, parse_loop fuel templatePath b s = Thrown reason).
Proof.
  induction fuel as [|fuel IH]; intros b s Hfuel; [lia|].
  simpl. destruct (good s); [|eauto].
  pose proof (parse_round_remaining s) as Hround. cbv zeta in Hround.
  destruct (readText s) as [text s1]. simpl in Hround.
  destruct (readTemplateCommand s1) as [command s2]. simpl in Hround.
  destruct (string_empty command); [eauto|].
  destruct (readWhiteSpace s2) as [[] s3]. simpl in Hround.
  pose proof (readCommandArguments_outcome command s3) as Hargs.
  destruct (readCommandArguments command s3) as [arguments s4].
  simpl in Hround, Hargs.
  destruct Hargs as [[c ->]|[reason ->]]; simpl; [|eauto].
  match goal with
  | |- context [Builder_apply templatePath c ?b0] =>
      destruct (Builder_apply_outcome templatePath c b0) as [[b' ->]|[reason ->]]
  end; simpl; [|eauto].
  pose proof (closeDirective_outcome command s4) as Hclose.
  destruct (closeDirective command s4) as [closed s5].
  simpl in Hround, Hclose.
  destruct Hclose as [->| ->]; simpl; [|eauto].
  apply IH. specialize (Hround eq_refl). lia.
Qed.

(** The bound of [Template_parse] is never reached: a parse returns a
    template or throws. *)
Lemma Template_parse_returns tpl source :
  (exists tpl', Template_parse tpl source = Done tpl')
  \/ (exists reason, Template_parse tpl source = Thrown reason).
Proof.
  unfold Template_parse.
  assert (Hfuel : remaining (istream_of source) < S (String.length source)).
  { unfold remaining, pending. simpl. lia. }
  destruct (parse_loop_returns _ (_templatePath tpl)
              {| _currentPart := []; _partStack := [] |} _ Hfuel)
    as [[b ->]|[reason ->]]; simpl; eauto.
Qed.

End ParseFuel.

Lemma parse_loop_fuel `{FS : FileSystem} templatePath fuel :
  forall fuel' b s,
    remaining s < fuel -> remaining s < fuel' ->
    parse_loop fuel templatePath b s = parse_loop fuel' templatePath b s.
Proof.
  induction fuel as [|fuel IH]; intros fuel' b s H H'; [lia|].
  destruct fuel' as [|fuel']; [lia|].
  simpl. destruct (good s); [|reflexivity].
  pose proof (parse_round_remaining s) as Hround. cbv zeta in Hround.
  destruct (readText s) as [text s1]. simpl in Hround.
  destruct (readTemplateCommand s1) as [command s2]. simpl in Hround.
  destruct (string_empty command); [reflexivity|].
  destruct (readWhiteSpace s2) as [[] s3]. simpl in Hround.
  destruct (readCommandArguments command s3) as [arguments s4].
  simpl in Hround.
  destruct arguments as [c| | |]; simpl; try reflexivity.
  match goal with
  | |- context [Builder_apply templatePath c ?b0] =>
      destruct (Builder_apply templatePath c b0) as [b'| | |]
  end; simpl; try reflexivity.
  destruct (closeDirective command s4) as [closed s5]. simpl in Hround.
  destruct closed as [[]| | |]; simpl; try reflexivity.
  specialize (Hround eq_refl). apply IH; lia.
Qed.

(** ** The data after a render *)





(** Without a cache, an include of a path at which no file exists renders
    a template that never parsed. *)
Lemma IncludePart_render_missing_file `{VM : ValueModel} `{FS : FileSystem}
    depth path data out :
  File_exists path = false ->
  IncludePart_render None (S depth) path data out = NullDeref.
Proof.
  intros Hno. simpl. unfold Template_parse_file. simpl. rewrite Hno.
  reflexivity.
Qed.

(** ** Rounds of the parse loop *)

Section Literal.
Context `{FS : FileSystem}.

Lemma has_opener_dropCR text : has_opener (dropCR text) -> has_opener text.
Proof.
  destruct text as [|c rest]; simpl; [auto|].
  destruct (decide (c = "013"%char)); [apply has_opener_later|auto].
Qed.

Lemma has_opener_dropLF text : has_opener (dropLF text) -> has_opener text.
Proof.
  destruct text as [|c rest]; simpl; [auto|].
  destruct (decide (c = "010"%char)); [apply has_opener_later|auto].
Qed.

(** A round of the parse loop on a stream that holds a literal text only:
    the text becomes a part and the loop ends. *)
Lemma parse_loop_literal fuel templatePath b s :
  ~ has_opener (pending s) ->
  parse_loop (S fuel) templatePath b s
  = Done {| _currentPart := _currentPart b ++ text_parts (pending s);
            _partStack := _partStack b |}.
Proof.
  intros Hfree. destruct s as [text ok]. unfold pending in *. simpl in Hfree.
  destruct ok; simpl.
  - change {| buf := text; good := true |} with (istream_of text).
    rewrite (readText_all text Hfree). unfold text_parts.
    destruct (bool_decide (0 < String.length text)); [reflexivity|].
    rewrite app_nil_r. destruct b; reflexivity.
  - unfold text_parts. simpl. rewrite app_nil_r. destruct b; reflexivity.
Qed.

(** A round of the parse loop that reads a directive and goes on. *)
Lemma parse_loop_round fuel templatePath b s text s1 command s2 s3 c s4 b' s5 :
  good s = true ->
  readText s = (text, s1) ->
  readTemplateCommand s1 = (command, s2) ->
  string_empty command = false ->
  readWhiteSpace s2 = (tt, s3) ->
  readCommandArguments command s3 = (Done c, s4) ->
  Builder_apply templatePath c
    {| _currentPart := _currentPart b ++ text_parts text;
       _partStack := _partStack b |} = Done b' ->
  closeDirective command s4 = (Done tt, s5) ->
  parse_loop (S fuel) templatePath b s = parse_loop fuel templatePath b' s5.
Proof.
  intros Hgood Htext Hcommand Hempty Hspace Hargs Hbuild Hclose.
  simpl. rewrite Hgood, Htext, Hcommand, Hempty, Hspace, Hargs. simpl.
  unfold text_parts in Hbuild.
  destruct (bool_decide (0 < String.length text)).
  - unfold addPart. rewrite Hbuild. simpl. rewrite Hclose. reflexivity.
  - rewrite app_nil_r in Hbuild. destruct b. simpl in *.
    rewrite Hbuild. simpl. rewrite Hclose. reflexivity.
Qed.

Lemma parse_after_if templatePath rest :
  ~ has_opener rest ->
  Template_parse (Template_new templatePath) ("<? if a ?>" +:+ rest)
  = Done {| _templatePath := templatePath;
            _tree := Some
              {| _currentPart := text_parts (dropLF (dropCR rest));
                 _partStack := [{| enclosing := [];
                                   block := LogicBlock [LogicValueQuery "a"] [] |}]
              |} |}.
Proof.
  intros Hfree. unfold Template_parse.
  destruct (closeDirective_swallow "if" {| buf := "?>" +:+ rest; good := true |} rest)
    as (s' & Hclose & Hpending); [discriminate | reflexivity |].
  change ("<? if a ?>" +:+ rest)
    with (String "<" (String "?" (String " " (String "i" (String "f"
           (String " " (String "a" (String " " ("?>" +:+ rest))))))))).
  cbn [_templatePath Template_new String.length].
  erewrite parse_loop_round;
    [ | reflexivity | vm_compute; reflexivity | vm_compute; reflexivity
      | reflexivity | vm_compute; reflexivity | vm_compute; reflexivity
      | reflexivity | exact Hclose ].
  rewrite parse_loop_literal.
  - rewrite Hpending. reflexivity.
  - rewrite Hpending. intros H. apply Hfree, has_opener_dropCR, has_opener_dropLF, H.
Qed.


End Literal.

(** The partial tree of an [if] block left open renders its text under
    the guard. *)
Lemma render_open_if `{VM : ValueModel} includeRender templatePath text data out :
  Template_render includeRender
    {| _templatePath := templatePath;
       _tree := Some
         {| _currentPart := text_parts text;
            _partStack := [{| enclosing := [];
                              block := LogicBlock [LogicValueQuery "a"] [] |}]
         |} |} data out
  = Done (data, if LogicQuery_apply (LogicValueQuery "a") data
                then out +:+ text else out).
Proof.
  unfold Template_render, Template_parts, text_parts.
  cbn [fmap option_fmap option_map _tree _currentPart _partStack Builder_root
       Frame_close enclosing block app render List.map LogicPart_render
       LogicPart_loop MultiPart_render].
  destruct (LogicQuery_apply (LogicValueQuery "a") data); [|reflexivity].
  destruct text as [|c rest]; simpl.
  - rewrite append_empty_r. reflexivity.
  - reflexivity.
Qed.

(** * Further facts about the scanner *)

Lemma length_append s t :
  String.length (s +:+ t) = String.length s + String.length t.
Proof.
  induction s as [|c s IH]; [reflexivity|].
  rewrite append_String. simpl. rewrite IH. reflexivity.
Qed.

Lemma readText_get_split text :
  forall fuel acc rest,
    String.length text < fuel ->
    ~ has_opener text ->
    (c ← get; readText_loop fuel c acc)
      {| buf := text +:+ "<?" +:+ rest; good := true |}
    = (acc +:+ text, {| buf := rest; good := true |}).
Proof.
  induction text as [|c text IH]; intros fuel acc rest Hfuel Hfree;
    (destruct fuel as [|fuel]; [simpl in Hfuel; lia|]).
  - rewrite append_empty_r. reflexivity.
  - simpl in Hfuel.
    assert (Hrest : ~ has_opener text).
    { intros H. apply Hfree, has_opener_later, H. }
    specialize (IH fuel (push_back acc c) rest ltac:(lia) Hrest).
    rewrite push_back_append in IH. rewrite <- IH.
    rewrite append_String. unfold mbind at 1, Scan_bind at 1. cbn [get good buf].
    rewrite readText_loop_step.
    destruct (decide (c = "<"%char)) as [->|Hc]; [|reflexivity].
    destruct text as [|c2 text].
    + reflexivity.
    + rewrite append_String. scan_step.
      destruct (decide (c2 = "?"%char)) as [->|Hc2].
      * exfalso. apply Hfree, has_opener_here.
      * rewrite bool_decide_eq_false_2 by congruence. reflexivity.
Qed.

Lemma readText_split text rest :
  ~ has_opener text ->
  readText (istream_of (text +:+ "<?" +:+ rest))
  = (text, {| buf := rest; good := true |}).
Proof.
  intros Hfree. unfold readText.
  rewrite (readText_get_split text _ "" rest); [reflexivity| |assumption].
  unfold istream_of. cbn [buf]. rewrite length_append. lia.
Qed.

Lemma skipSpaces_split text :
  exists ws, text = ws +:+ skipSpaces text
             /\ string_forall Ascii_isSpace ws = true.
Proof.
  induction text as [|c text (ws & E & Hws)]; simpl.
  - exists "". split; reflexivity.
  - destruct (Ascii_isSpace c) eqn:Hc.
    + exists (String c ws). rewrite append_String, <- E. simpl. rewrite Hc, Hws.
      split; reflexivity.
    + exists "". split; reflexivity.
Qed.

Lemma skipSpaces_begins text : ends_or_begins no_space (skipSpaces text) = true.
Proof.
  induction text as [|c text IH]; simpl; [reflexivity|].
  destruct (Ascii_isSpace c) eqn:Hc; [assumption|].
  simpl. unfold no_space. rewrite Hc. reflexivity.
Qed.

Lemma readWord_loop_word fuel :
  forall acc s,
    remaining s < fuel ->
    exists w,
      (readWord_loop fuel acc s).1 = acc +:+ w
      /\ pending s = w +:+ pending (readWord_loop fuel acc s).2
      /\ string_forall no_space w = true
      /\ ends_or_begins Ascii_isSpace (pending (readWord_loop fuel acc s).2) = true.
Proof.
  induction fuel as [|fuel IH]; intros acc s Hfuel; [lia|].
  destruct s as [[|c text] []]; unfold remaining in Hfuel; simpl in Hfuel;
    simpl; scan_step;
    try (exists ""; rewrite append_empty_r; repeat split; reflexivity).
  destruct (Ascii_isSpace c) eqn:Hc; simpl.
  - exists "". rewrite append_empty_r. unfold pending. simpl.
    repeat split; try reflexivity. exact Hc.
  - destruct (IH (push_back acc c) {| buf := text; good := true |})
      as (w & Hw & Hp & Hall & Hend).
    { unfold remaining, pending. simpl. lia. }
    exists (String c w). rewrite Hw, push_back_append.
    unfold pending at 1 in Hp. simpl in Hp.
    unfold pending at 1. simpl. rewrite append_String, <- Hp.
    unfold no_space at 1. rewrite Hc, Hall. simpl.
    repeat split; try reflexivity. exact Hend.
Qed.

Lemma readString_loop_closed fuel :
  forall acc body tail,
    String.length body < fuel ->
    string_forall no_quote body = true ->
    readString_loop fuel acc {| buf := body +:+ String quote tail; good := true |}
    = (acc +:+ body, {| buf := tail; good := true |}).
Proof.
  induction fuel as [|fuel IH]; intros acc body tail Hfuel Hbody; [lia|].
  destruct body as [|c body]; simpl in *.
  - simpl. scan_step. destruct (decide (quote = quote)); [|congruence].
    rewrite append_empty_r. reflexivity.
  - apply andb_prop in Hbody. destruct Hbody as [Hc Hbody].
    rewrite append_String. simpl. scan_step.
    unfold no_quote in Hc. apply negb_true_iff, bool_decide_eq_false in Hc.
    destruct (decide (c = quote)); [contradiction|].
    rewrite IH by (assumption || lia). rewrite push_back_append. reflexivity.
Qed.

Lemma readString_loop_open fuel :
  forall acc body,
    String.length body < fuel ->
    string_forall no_quote body = true ->
    readString_loop fuel acc {| buf := body; good := true |}
    = (acc +:+ body, at_eof).
Proof.
  induction fuel as [|fuel IH]; intros acc body Hfuel Hbody; [lia|].
  destruct body as [|c body]; simpl in *.
  - simpl. scan_step. rewrite append_empty_r. reflexivity.
  - apply andb_prop in Hbody. destruct Hbody as [Hc Hbody].
    simpl. scan_step.
    unfold no_quote in Hc. apply negb_true_iff, bool_decide_eq_false in Hc.
    destruct (decide (c = quote)); [contradiction|].
    rewrite IH by (assumption || lia). rewrite push_back_append. reflexivity.
Qed.

Lemma readQuery_loop_word fuel :
  forall acc s,
    remaining s < fuel ->
    exists w tail,
      (readQuery_loop fuel acc s).1 = acc +:+ w
      /\ pending s = w +:+ tail
      /\ string_forall no_space w = true
      /\ no_closer_in w tail = true
      /\ query_end tail (pending (readQuery_loop fuel acc s).2).
Proof.
  induction fuel as [|fuel IH]; intros acc s Hfuel; [lia|].
  destruct s as [[|c text] []]; unfold remaining in Hfuel; simpl in Hfuel;
    simpl; scan_step;
    try (exists "", ""; rewrite append_empty_r; repeat split;
         try reflexivity; left; split; reflexivity).
  assert (Hnext : Ascii_isSpace c = false ->
            begins_closer (String c text) = false ->
            exists w tail,
              (readQuery_loop fuel (push_back acc c)
                 {| buf := text; good := true |}).1 = acc +:+ w
              /\ String c text = w +:+ tail
              /\ string_forall no_space w = true
              /\ no_closer_in w tail = true
              /\ query_end tail
                   (pending (readQuery_loop fuel (push_back acc c)
                      {| buf := text; good := true |}).2)).
  { intros Hsp Hcl.
    destruct (IH (push_back acc c) {| buf := text; good := true |})
      as (w & tail & Hw & Hp & Hall & Hno & Hend).
    { unfold remaining, pending. simpl. lia. }
    unfold pending at 1 in Hp. simpl in Hp.
    exists (String c w), tail. rewrite Hw, push_back_append, append_String, <- Hp.
    cbn [string_forall no_closer_in]. unfold no_space at 1.
    rewrite Hsp, Hall, <- Hp, Hcl, Hno.
    repeat split; try reflexivity. exact Hend. }
  assert (Hspace : Ascii_isSpace c = true ->
            exists w tail : string,
              acc = acc +:+ w
              /\ String c text = w +:+ tail
              /\ string_forall no_space w = true
              /\ no_closer_in w tail = true
              /\ query_end tail text).
  { intros Hsp. exists "", (String c text). rewrite append_empty_r.
    repeat split; try reflexivity. right. right. exists c. split; [reflexivity|assumption]. }
  destruct (decide (c = "?"%char)) as [->|Hc]; simpl.
  - destruct text as [|c2 text]; simpl.
    + destruct (IH (push_back acc "?") at_eof) as (w & tail & Hw & Hp & Hall & Hno & Hend).
      { unfold remaining, pending. simpl. lia. }
      unfold pending at 1 in Hp. simpl in Hp.
      change {| buf := ""; good := false |} with at_eof.
      destruct w; [|discriminate Hp]. destruct tail; [|discriminate Hp].
      exists "?", "". rewrite Hw. unfold push_back. rewrite append_empty_r.
      repeat split; try reflexivity. exact Hend.
    + destruct (decide (c2 = ">"%char)) as [->|Hc2].
      * simpl. exists "", (String "?" (String ">" text)). rewrite append_empty_r.
        unfold pending. simpl.
        repeat split; try reflexivity. right. left. split; reflexivity.
      * rewrite bool_decide_eq_false_2 by congruence. simpl.
        apply Hnext; [reflexivity|]. simpl.
        apply bool_decide_eq_false_2. assumption.
  - destruct (Ascii_isSpace c) eqn:Hsp; simpl.
    + unfold pending. simpl. apply Hspace. reflexivity.
    + apply Hnext; [reflexivity|]. simpl. destruct text; simpl;
        rewrite ?bool_decide_eq_false_2 by assumption; reflexivity.
Qed.

Lemma readQuery_loop_token_step fuel acc c text :
  token_char c = true ->
  readQuery_loop (S fuel) acc {| buf := String c text; good := true |}
  = readQuery_loop fuel (push_back acc c) {| buf := text; good := true |}.
Proof.
  unfold token_char, no_space. intros H. apply andb_prop in H.
  destruct H as [Hsp Hq]. apply negb_true_iff in Hsp.
  apply negb_true_iff, bool_decide_eq_false in Hq.
  simpl. scan_step. destruct (decide (c = "?"%char)); [contradiction|].
  simpl. rewrite Hsp. reflexivity.
Qed.

Lemma readQuery_loop_token q :
  forall fuel acc tail,
    String.length q <= fuel ->
    string_forall token_char q = true ->
    readQuery_loop (fuel + 1) acc {| buf := q +:+ tail; good := true |}
    = readQuery_loop (fuel - String.length q + 1) (acc +:+ q)
        {| buf := tail; good := true |}.
Proof.
  induction q as [|c q IH]; intros fuel acc tail Hfuel Hq; simpl in *.
  - rewrite append_empty_r, Nat.sub_0_r. reflexivity.
  - apply andb_prop in Hq. destruct Hq as [Hc Hq].
    destruct fuel as [|fuel]; [lia|].
    rewrite append_String. cbn [Nat.add].
    rewrite readQuery_loop_token_step by assumption.
    rewrite IH by (assumption || lia).
    rewrite push_back_append. reflexivity.
Qed.

(** * Further facts about the parse loop *)

Section Rounds.
Context `{FS : FileSystem}.

(** The parse loop on two streams that give the same text and the same
    command and are then in the same state. *)
Lemma parse_loop_from_command fuel fuel' templatePath b s s' text s1 s1'
    command s2 :
  good s = true -> good s' = true ->
  readText s = (text, s1) -> readText s' = (text, s1') ->
  readTemplateCommand s1 = (command, s2) ->
  readTemplateCommand s1' = (command, s2) ->
  remaining s2 < fuel -> remaining s2 < fuel' ->
  parse_loop (S fuel) templatePath b s = parse_loop (S fuel') templatePath b s'.
Proof.
  intros Hgood Hgood' Htext Htext' Hcommand Hcommand' Hfuel Hfuel'.
  simpl. rewrite Hgood, Hgood', Htext, Htext', Hcommand, Hcommand'.
  destruct (string_empty command); [reflexivity|].
  pose proof (readWhiteSpace_remaining s2) as H3.
  destruct (readWhiteSpace s2) as [[] s3]. simpl in H3.
  pose proof (readCommandArguments_remaining command s3) as H4.
  destruct (readCommandArguments command s3) as [arguments s4]. simpl in H4.
  destruct arguments as [c| | |]; simpl; try reflexivity.
  match goal with
  | |- context [Builder_apply templatePath c ?b0] =>
      destruct (Builder_apply templatePath c b0) as [b'| | |]
  end; simpl; try reflexivity.
  pose proof (closeDirective_remaining command s4) as H5.
  destruct (closeDirective command s4) as [closed s5]. simpl in H5.
  destruct closed as [[]| | |]; simpl; try reflexivity.
  apply parse_loop_fuel; lia.
Qed.

(** A round of the parse loop that reads no command ends the parse. *)
Lemma parse_loop_stop fuel templatePath b s text s1 :
  good s = true ->
  readText s = (text, s1) ->
  (readTemplateCommand s1).1 = "" ->
  parse_loop (S fuel) templatePath b s
  = Done {| _currentPart := _currentPart b ++ text_parts text;
            _partStack := _partStack b |}.
Proof.
  intros Hgood Htext Hcommand. simpl. rewrite Hgood, Htext.
  destruct (readTemplateCommand s1) as [command s2]. simpl in Hcommand.
  subst command. simpl. unfold text_parts.
  destruct (bool_decide (0 < String.length text)); [reflexivity|].
  rewrite app_nil_r. destruct b; reflexivity.
Qed.

End Rounds.

Lemma skipSpaces_spaces ws tail :
  string_forall Ascii_isSpace ws = true ->
  skipSpaces (ws +:+ tail) = skipSpaces tail.
Proof.
  induction ws as [|c ws IH]; [reflexivity|]. cbn [string_forall].
  intros H. apply andb_prop in H. destruct H as [Hc Hws].
  rewrite append_String. cbn [skipSpaces]. rewrite Hc. apply IH, Hws.
Qed.

Lemma begins_closer_inv text :
  begins_closer text = true -> exists rest, text = "?>" +:+ rest.
Proof.
  destruct text as [|c [|c2 rest]]; try discriminate. simpl.
  intros H. apply andb_prop in H. destruct H as [H1 H2].
  apply bool_decide_eq_true in H1, H2. subst. exists rest. reflexivity.
Qed.

(** No command is read where the closer or the end of the input follows
    the opener. *)
Lemma readTemplateCommand_none s :
  skipSpaces (pending s) = "" \/ begins_closer (skipSpaces (pending s)) = true ->
  (readTemplateCommand s).1 = "".
Proof.
  intros H. unfold readTemplateCommand.
  generalize (S (String.length (buf s))). intros fuel. scan_step.
  pose proof (readWhiteSpace_pending s) as Hp.
  destruct (readWhiteSpace s) as [[] s1]. simpl in Hp. rewrite <- Hp in H.
  destruct s1 as [[|c text] []]; unfold pending in H; simpl in H; simpl;
    try (destruct fuel; reflexivity).
  destruct H as [H|H]; [discriminate|].
  destruct text as [|c2 text]; [discriminate|].
  apply andb_prop in H. destruct H as [H1 H2].
  apply bool_decide_eq_true in H1, H2. subst.
  destruct fuel; reflexivity.
Qed.

Lemma readCommandArguments_unknown command s :
  command ∉ keywords ->
  readCommandArguments command s = (Thrown ("Unknown command " +:+ command), s).
Proof.
  intros Hno. unfold readCommandArguments.
  repeat (case_decide || case_bool_decide || simpl);
    try reflexivity; exfalso; apply Hno; unfold keywords; subst;
    repeat (constructor || match goal with H : _ \/ _ |- _ => destruct H; subst end).
Qed.

Lemma no_opener_empty : ~ has_opener "".
Proof. intros (before & after & H). destruct before; discriminate H. Qed.

Lemma token_char_inv c :
  token_char c = true -> Ascii_isSpace c = false /\ c <> "?"%char.
Proof.
  unfold token_char, no_space. intros H. apply andb_prop in H.
  destruct H as [Hsp Hq]. apply negb_true_iff in Hsp.
  apply negb_true_iff, bool_decide_eq_false in Hq. auto.
Qed.

Lemma readTemplateCommand_loop_token_step fuel command c text :
  token_char c = true ->
  c <> "="%char \/ command <> "" ->
  readTemplateCommand_loop (S fuel) (Some c) command
    {| buf := text; good := true |}
  = (c' ← get; readTemplateCommand_loop fuel c' (push_back command c))
      {| buf := text; good := true |}.
Proof.
  intros Hc Hfirst. apply token_char_inv in Hc. destruct Hc as [Hsp Hq].
  rewrite readTemplateCommand_loop_step. rewrite Hsp.
  destruct (decide (c = "?"%char)); [contradiction|].
  unfold mbind at 1, Scan_bind at 1, mret at 1, Scan_ret at 1.
  cbv iota beta.
  assert (Hecho : bool_decide (c = "="%char)
                  && bool_decide (String.length command = 0) = false).
  { destruct Hfirst as [H|H].
    - rewrite bool_decide_eq_false_2 by assumption. reflexivity.
    - destruct command; [congruence|]. apply andb_false_r. }
  rewrite Hecho. reflexivity.
Qed.

Lemma push_back_not_empty command c : push_back command c <> "".
Proof. unfold push_back. destruct command; discriminate. Qed.

Lemma readTemplateCommand_loop_word w :
  forall fuel command c sp tail,
    String.length w < fuel ->
    string_forall token_char (String c w) = true ->
    c <> "="%char \/ command <> "" ->
    Ascii_isSpace sp = true ->
    readTemplateCommand_loop fuel (Some c) command
      {| buf := w +:+ String sp tail; good := true |}
    = (command +:+ String c w, {| buf := tail; good := true |}).
Proof.
  induction w as [|c2 w IH]; intros fuel command c sp tail Hfuel Hw Hfirst Hsp;
    (destruct fuel as [|fuel]; [simpl in Hfuel; lia|]);
    cbn [string_forall] in Hw; apply andb_prop in Hw; destruct Hw as [Hc Hw].
  - rewrite readTemplateCommand_loop_token_step by assumption.
    scan_step. destruct fuel; simpl; rewrite ?Hsp; reflexivity.
  - rewrite readTemplateCommand_loop_token_step by assumption.
    rewrite append_String. unfold mbind, Scan_bind. cbn [get good buf].
    simpl in Hfuel.
    rewrite (IH fuel (push_back command c) c2 sp tail); try assumption; try lia.
    + rewrite push_back_append. reflexivity.
    + right. apply push_back_not_empty.
Qed.

(** [readTemplateCommand] on a command word that white space ends. *)
Lemma readTemplateCommand_word c w sp tail :
  string_forall token_char (String c w) = true ->
  c <> "="%char ->
  Ascii_isSpace sp = true ->
  readTemplateCommand {| buf := String " " (String c w +:+ String sp tail);
                         good := true |}
  = (String c w, {| buf := tail; good := true |}).
Proof.
  intros Hw Hc Hsp. unfold readTemplateCommand.
  generalize (eq_refl (String.length (buf {| buf := String " " (String c w +:+ String sp tail); good := true |}))).
  generalize (String.length (buf {| buf := String " " (String c w +:+ String sp tail); good := true |})) at 2 3.
  intros n Hn. cbn [buf] in Hn. simpl in Hn. rewrite length_append in Hn.
  simpl in Hn.
  pose proof Hw as Hw'. cbn [string_forall] in Hw'. apply andb_prop in Hw'.
  destruct Hw' as [Hcc _]. apply token_char_inv in Hcc. destruct Hcc as [Hcsp _].
  assert (Hws : readWhiteSpace {| buf := String " " (String c w +:+ String sp tail);
                                  good := true |}
                = (tt, {| buf := String c w +:+ String sp tail; good := true |})).
  { unfold readWhiteSpace. simpl. scan_step. rewrite Hcsp. reflexivity. }
  unfold mbind at 1, Scan_bind at 1. rewrite Hws.
  rewrite append_String. unfold mbind, Scan_bind. cbn [get good buf].
  rewrite (readTemplateCommand_loop_word w (S n) "" c sp tail); auto.
  lia.
Qed.

(** The length of a source that holds an opener bounds what follows the
    opener. *)
Lemma length_source text tail :
  exists n, String.length (text +:+ String "<" tail) = S n
            /\ String.length tail <= n.
Proof.
  exists (String.length text + String.length tail).
  rewrite length_append. simpl. lia.
Qed.

(** * Rendering sequences and literal texts *)

Section MoreRender.
Context `{VM : ValueModel}.
Variable includeRender : Path -> Renderer.

Lemma MultiPart_render_app (rs1 rs2 : list Renderer) data out :
  MultiPart_render (rs1 ++ rs2) data out
  = ('(data', out') ← MultiPart_render rs1 data out;
     MultiPart_render rs2 data' out').
Proof.
  revert data out. induction rs1 as [|r rs1 IH]; intros data out; simpl.
  - reflexivity.
  - destruct (r data out) as [[d o]| | |]; simpl; [apply IH|reflexivity..].
Qed.

Lemma render_text_parts text data out :
  MultiPart_render (List.map (render includeRender) (text_parts text)) data out
  = Done (data, out +:+ text).
Proof.
  unfold text_parts. destruct text as [|c text]; simpl.
  - rewrite append_empty_r. reflexivity.
  - reflexivity.
Qed.

End MoreRender.

(** * Missing arguments *)

(** A query token followed by white space is read whole. *)
Lemma readQuery_token q sp tail :
  query_token q = true ->
  Ascii_isSpace sp = true ->
  readQuery {| buf := q +:+ String sp tail; good := true |}
  = (q, {| buf := tail; good := true |}).
Proof.
  unfold query_token. intros Hq Hsp. apply andb_prop in Hq.
  destruct Hq as [_ Hq]. unfold readQuery. cbn [buf].
  rewrite length_append. 
  replace (S (String.length q + String.length (String sp tail)))
    with ((String.length q + String.length (String sp tail)) + 1) by lia.
  rewrite readQuery_loop_token by (assumption || lia).
  replace (String.length q + String.length (String sp tail) - String.length q + 1)
    with (S (String.length (String sp tail))) by lia.
  simpl. scan_step.
  destruct (decide (sp = "?"%char)) as [->|Hne]; [discriminate Hsp|].
  simpl. rewrite Hsp. reflexivity.
Qed.

(** When [readQuery] and [readWord] return nothing. *)
Lemma readQuery_empty_iff s :
  (readQuery s).1 = ""
  <-> begins_closer (pending s) = true
      \/ ends_or_begins Ascii_isSpace (pending s) = true.
Proof.
  unfold readQuery.
  destruct (readQuery_loop_word (S (String.length (buf s))) "" s)
    as (w & tail & Hw & Hp & Hall & Hno & Hend).
  { pose proof (remaining_buf s). lia. }
  rewrite Hw, Hp. clear Hw Hp. split.
  - intros Hempty. change ("" +:+ w) with w in Hempty. subst w.
    change ("" +:+ tail) with tail.
    destruct Hend as [[-> _]|[[Hc _]|(sp & -> & Hsp)]]; auto.
  - intros H. destruct w as [|c w]; [reflexivity|]. exfalso.
    cbn [string_forall no_closer_in] in Hall, Hno.
    apply andb_prop in Hall, Hno. destruct Hall as [Hc _]. destruct Hno as [Hcl _].
    rewrite append_String in H. destruct H as [H|H].
    + rewrite H in Hcl. discriminate.
    + simpl in H. unfold no_space in Hc. rewrite H in Hc. discriminate.
Qed.

Lemma readWord_empty_iff s :
  (readWord s).1 = "" <-> ends_or_begins Ascii_isSpace (pending s) = true.
Proof.
  unfold readWord.
  destruct (readWord_loop_word (S (String.length (buf s))) "" s)
    as (w & Hw & Hp & Hall & Hend).
  { pose proof (remaining_buf s). lia. }
  rewrite Hw, Hp. clear Hw. split.
  - intros Hempty. change ("" +:+ w) with w in Hempty. subst w. exact Hend.
  - intros H. destruct w as [|c w]; [reflexivity|]. exfalso.
    cbn [string_forall] in Hall. apply andb_prop in Hall. destruct Hall as [Hc _].
    rewrite append_String in H. simpl in H. unfold no_space in Hc.
    rewrite H in Hc. discriminate.
Qed.

Lemma begins_both text :
  ends_or_begins no_space text = true ->
  ends_or_begins Ascii_isSpace text = true ->
  text = "".
Proof.
  destruct text as [|c text]; [reflexivity|]. simpl. unfold no_space.
  intros H1 H2. rewrite H2 in H1. discriminate.
Qed.

(** * Rendering only appends to the output *)

Section Appending.
Context `{VM : ValueModel}.

Lemma appends_then (r1 : Renderer) (r2 : Renderer) :
  appends r1 -> appends r2 ->
  appends (fun data out => '(data', out') ← r1 data out; r2 data' out').
Proof.
  intros H1 H2 data out. rewrite (H1 data out).
  destruct (r1 data "") as [[data1 w1]| | |]; simpl; try reflexivity.
  unfold mbind, Outcome_bind. simpl.
  rewrite (H2 data1 (out +:+ w1)), (H2 data1 w1).
  destruct (r2 data1 "") as [[data2 w2]| | |]; simpl; try reflexivity.
  rewrite append_assoc. reflexivity.
Qed.

Lemma appends_done : appends (fun data out => Done (data, out)).
Proof. intros data out. simpl. rewrite append_empty_r. reflexivity. Qed.

Lemma MultiPart_render_appends rs :
  Forall appends rs -> appends (MultiPart_render rs).
Proof.
  induction 1 as [|r rs Hr _ IH].
  - apply appends_done.
  - exact (appends_then r (MultiPart_render rs) Hr IH).
Qed.

Lemma LogicPart_loop_appends queries rs :
  Forall appends rs -> forall count, appends (LogicPart_loop queries rs count).
Proof.
  intros Hrs. induction queries as [|q queries IH]; intros count data out.
  - apply appends_done.
  - simpl. destruct (LogicQuery_apply q data && bool_decide (count < length rs)).
    + destruct (rs !! count) as [p|] eqn:Hp.
      * apply (Forall_lookup_1 _ _ _ _ Hrs Hp).
      * apply appends_done.
    + apply IH.
Qed.

Lemma LoopPart_loop_appends name body elems :
  appends body -> appends (LoopPart_loop name body elems).
Proof.
  intros Hbody. induction elems as [|value elems IH].
  - apply appends_done.
  - intros data out.
    exact (appends_then (fun data out => body (Object_set name value data) out)
             (LoopPart_loop name body elems)
             (fun data out => Hbody (Object_set name value data) out) IH data out).
Qed.

Lemma LoopPart_render_appends name query body :
  appends body -> appends (LoopPart_render name query body).
Proof.
  intros Hbody data out. unfold LoopPart_render.
  destruct (Var_isObject data); [|apply appends_done].
  destruct (Query_findArray data query) as [elems|]; [|apply appends_done].
  exact (appends_then (LoopPart_loop name body elems)
           (fun data' out' => Done (Object_remove name data', out'))
           (LoopPart_loop_appends name body elems Hbody)
           (fun data' out' => appends_done (Object_remove name data') out')
           data out).
Qed.

Lemma render_appends includeRender :
  (forall path, appends (includeRender path)) ->
  forall p, appends (render includeRender p).
Proof.
  intros Hinc. induction p as [content|parts IH|query|queries parts IH
                              |name query parts IH|path] using Part_all_ind.
  - intros data out. simpl. unfold StringPart_render. simpl.
    reflexivity.
  - simpl. apply MultiPart_render_appends. rewrite Forall_map. exact IH.
  - intros data out. simpl. unfold EchoPart_render.
    destruct (negb (Var_isEmpty (Query_find data query))); simpl;
      [reflexivity | rewrite append_empty_r; reflexivity].
  - simpl. apply LogicPart_loop_appends. rewrite Forall_map. exact IH.
  - simpl. apply LoopPart_render_appends, MultiPart_render_appends.
    rewrite Forall_map. exact IH.
  - apply Hinc.
Qed.

Lemma Template_render_appends includeRender tpl :
  (forall path, appends (includeRender path)) ->
  appends (Template_render includeRender tpl).
Proof.
  intros Hinc data out. unfold Template_render.
  destruct (Template_parts tpl) as [parts|]; [|reflexivity].
  apply render_appends, Hinc.
Qed.

Lemma IncludePart_render_appends `{FS : FileSystem} cache depth :
  forall path, appends (IncludePart_render cache depth path).
Proof.
  induction depth as [|depth IH]; intros path data out; [reflexivity|].
  simpl. destruct cache as [getTemplate|].
  - destruct (getTemplate path) as [[tpl|]| | |]; simpl; try reflexivity.
    apply Template_render_appends, IH.
  - destruct (Template_parse_file (Template_new path)) as [tpl| | |];
      simpl; try reflexivity.
    apply Template_render_appends, IH.
Qed.

End Appending.

(** * Rendering only removes fields *)

Lemma within_refl data : within data data.
Proof. destruct data; simpl; try reflexivity. eexists. split; reflexivity. Qed.

Lemma within_trans data1 data2 data3 :
  within data2 data1 -> within data3 data2 -> within data3 data1.
Proof.
  destruct data1; simpl; try (intros ->; simpl; intros ->; reflexivity).
  intros (fields2 & -> & H2). simpl. intros (fields3 & -> & H3).
  exists fields3. split; [reflexivity|]. etrans; eassumption.
Qed.

Lemma within_remove name data' data :
  within data' data -> within (Object_remove name data') (Object_remove name data).
Proof.
  destruct data; simpl; try (intros ->; reflexivity).
  intros (fields' & -> & H). simpl. eexists. split; [reflexivity|].
  apply delete_mono, H.
Qed.

Lemma within_removed name data : within (Object_remove name data) data.
Proof.
  destruct data; simpl; try reflexivity.
  eexists. split; [reflexivity|]. apply delete_subseteq.
Qed.

Lemma Object_remove_set name value data :
  Object_remove name (Object_set name value data) = Object_remove name data.
Proof.
  destruct data; simpl; try reflexivity. f_equal. apply delete_insert_eq.
Qed.

Section Shrinking.
Context `{VM : ValueModel}.

Lemma MultiPart_render_shrinks rs :
  Forall shrinks rs -> shrinks (MultiPart_render rs).
Proof.
  induction 1 as [|r rs Hr _ IH]; intros data out data' out' Hrun.
  - injection Hrun as <- <-. apply within_refl.
  - simpl in Hrun. destruct (r data out) as [[data1 out1]| | |] eqn:Hfirst;
      try discriminate.
    eapply within_trans; [exact (Hr _ _ _ _ Hfirst) | exact (IH _ _ _ _ Hrun)].
Qed.

Lemma LogicPart_loop_shrinks queries rs :
  Forall shrinks rs -> forall count, shrinks (LogicPart_loop queries rs count).
Proof.
  intros Hrs. induction queries as [|q queries IH];
    intros count data out data' out' Hrun.
  - injection Hrun as <- <-. apply within_refl.
  - simpl in Hrun.
    destruct (LogicQuery_apply q data && bool_decide (count < length rs)).
    + destruct (rs !! count) as [p|] eqn:Hp.
      * exact (Forall_lookup_1 _ _ _ _ Hrs Hp _ _ _ _ Hrun).
      * injection Hrun as <- <-. apply within_refl.
    + exact (IH _ _ _ _ _ Hrun).
Qed.

Lemma LoopPart_loop_shrinks name body elems :
  shrinks body ->
  forall data out data' out',
    LoopPart_loop name body elems data out = Done (data', out') ->
    within (Object_remove name data') (Object_remove name data).
Proof.
  intros Hbody. induction elems as [|value elems IH];
    intros data out data' out' Hrun.
  - injection Hrun as <- <-. apply within_refl.
  - simpl in Hrun.
    destruct (body (Object_set name value data) out) as [[data1 out1]| | |]
      eqn:Hfirst; try discriminate.
    apply Hbody in Hfirst. apply (within_remove name) in Hfirst.
    rewrite Object_remove_set in Hfirst.
    eapply within_trans; [exact Hfirst | exact (IH _ _ _ _ Hrun)].
Qed.

Lemma LoopPart_render_shrinks name query body :
  shrinks body -> shrinks (LoopPart_render name query body).
Proof.
  intros Hbody data out data' out' Hrun. unfold LoopPart_render in Hrun.
  destruct (Var_isObject data);
    [|injection Hrun as <- <-; apply within_refl].
  destruct (Query_findArray data query) as [elems|];
    [|injection Hrun as <- <-; apply within_refl].
  destruct (LoopPart_loop name body elems data out) as [[data1 out1]| | |]
    eqn:Hloop; try discriminate.
  injection Hrun as <- <-.
  eapply within_trans; [apply (within_removed name)|].
  exact (LoopPart_loop_shrinks name body elems Hbody _ _ _ _ Hloop).
Qed.

Lemma render_shrinks includeRender :
  (forall path, shrinks (includeRender path)) ->
  forall p, shrinks (render includeRender p).
Proof.
  intros Hinc. induction p as [content|parts IH|query|queries parts IH
                              |name query parts IH|path] using Part_all_ind.
  - intros data out data' out' Hrun. injection Hrun as <- <-. apply within_refl.
  - simpl. apply MultiPart_render_shrinks. rewrite Forall_map. exact IH.
  - intros data out data' out' Hrun. simpl in Hrun. unfold EchoPart_render in Hrun.
    destruct (negb (Var_isEmpty (Query_find data query)));
      injection Hrun as <- <-; apply within_refl.
  - simpl. apply LogicPart_loop_shrinks. rewrite Forall_map. exact IH.
  - simpl. apply LoopPart_render_shrinks, MultiPart_render_shrinks.
    rewrite Forall_map. exact IH.
  - apply Hinc.
Qed.

Lemma Template_render_shrinks includeRender tpl :
  (forall path, shrinks (includeRender path)) ->
  shrinks (Template_render includeRender tpl).
Proof.
  intros Hinc data out data' out' Hrun. unfold Template_render in Hrun.
  destruct (Template_parts tpl) as [parts|]; [|discriminate].
  exact (render_shrinks includeRender Hinc parts _ _ _ _ Hrun).
Qed.

Lemma IncludePart_render_shrinks `{FS : FileSystem} cache depth :
  forall path, shrinks (IncludePart_render cache depth path).
Proof.
  induction depth as [|depth IH]; intros path data out data' out' Hrun;
    [discriminate|].
  simpl in Hrun. destruct cache as [getTemplate|].
  - destruct (getTemplate path) as [[tpl|]| | |]; try discriminate.
    exact (Template_render_shrinks _ tpl IH _ _ _ _ Hrun).
  - destruct (Template_parse_file (Template_new path)) as [tpl| | |];
      try discriminate.
    exact (Template_render_shrinks _ tpl IH _ _ _ _ Hrun).
Qed.

End Shrinking.

(** * Directives written out and read back *)

(** A stream that can deliver a non-empty text is good and holds it. *)
Lemma pending_append s text c rest :
  pending s = text +:+ String c rest ->
  s = {| buf := text +:+ String c rest; good := true |}.
Proof.
  destruct s as [b []]; unfold pending; simpl.
  - intros ->. reflexivity.
  - destruct text; discriminate.
Qed.

(** [readWhiteSpace] up to the first character that is no white space. *)
Lemma readWhiteSpace_to s c rest :
  skipSpaces (pending s) = String c rest ->
  readWhiteSpace s = (tt, {| buf := String c rest; good := true |}).
Proof.
  intros H. pose proof (readWhiteSpace_pending s) as Hp. rewrite H in Hp.
  destruct (readWhiteSpace s) as [[] s']. simpl in Hp.
  rewrite (pending_String _ _ _ Hp). reflexivity.
Qed.

(** A word followed by white space is read whole, the white space stays. *)
Lemma readWord_loop_exact w :
  forall fuel acc sp tail,
    String.length w < fuel ->
    string_forall no_space w = true ->
    Ascii_isSpace sp = true ->
    readWord_loop fuel acc {| buf := w +:+ String sp tail; good := true |}
    = (acc +:+ w, {| buf := String sp tail; good := true |}).
Proof.
  induction w as [|c w IH]; intros fuel acc sp tail Hfuel Hw Hsp.
  - destruct fuel; [simpl in Hfuel; lia|]. simpl. scan_step. rewrite Hsp. simpl.
    rewrite append_empty_r. reflexivity.
  - destruct fuel; [simpl in Hfuel; lia|].
    cbn [string_forall] in Hw. apply andb_prop in Hw. destruct Hw as [Hc Hw].
    rewrite append_String. simpl. scan_step. unfold no_space in Hc. rewrite Hc.
    simpl. rewrite IH by (simpl in Hfuel; try lia; assumption).
    rewrite push_back_append. reflexivity.
Qed.

Lemma readWord_exact w sp tail :
  string_forall no_space w = true ->
  Ascii_isSpace sp = true ->
  readWord {| buf := w +:+ String sp tail; good := true |}
  = (w, {| buf := String sp tail; good := true |}).
Proof.
  intros Hw Hsp. unfold readWord. cbn [buf].
  rewrite (readWord_loop_exact w _ "" sp tail); [reflexivity| |assumption..].
  rewrite length_append. lia.
Qed.

(** A text between double quotes is read whole. *)
Lemma readString_quoted f tail :
  string_forall no_quote f = true ->
  readString {| buf := String quote (f +:+ String quote tail); good := true |}
  = (f, {| buf := tail; good := true |}).
Proof.
  intros Hf. unfold readString, mbind, Scan_bind, get. cbn [good buf].
  destruct (decide (Some quote = Some quote)); [|congruence].
  rewrite (readString_loop_closed _ "" f tail); [reflexivity| |assumption].
  cbn [String.length]. rewrite length_append. lia.
Qed.

(** A round of the parse loop that reads a directive: the tree is built or
    the building throws. *)
Lemma parse_loop_round_bind `{FS : FileSystem} fuel templatePath b s text s1
    command s2 s3 c s4 s5 :
  good s = true ->
  readText s = (text, s1) ->
  readTemplateCommand s1 = (command, s2) ->
  string_empty command = false ->
  readWhiteSpace s2 = (tt, s3) ->
  readCommandArguments command s3 = (Done c, s4) ->
  closeDirective command s4 = (Done tt, s5) ->
  parse_loop (S fuel) templatePath b s
  = (b' ← Builder_apply templatePath c
            {| _currentPart := _currentPart b ++ text_parts text;
               _partStack := _partStack b |};
     parse_loop fuel templatePath b' s5).
Proof.
  intros Hgood Htext Hcommand Hempty Hspace Hargs Hclose.
  simpl. rewrite Hgood, Htext, Hcommand, Hempty, Hspace, Hargs. simpl.
  unfold text_parts.
  destruct (bool_decide (0 < String.length text)).
  - unfold addPart.
    destruct (Builder_apply _ _ _) as [b'| | |]; simpl; try reflexivity.
    rewrite Hclose. reflexivity.
  - rewrite app_nil_r. destruct b. simpl.
    destruct (Builder_apply _ _ _) as [b'| | |]; simpl; try reflexivity.
    rewrite Hclose. reflexivity.
Qed.

Lemma skipSpaces_stay c text :
  Ascii_isSpace c = false -> skipSpaces (String c text) = String c text.
Proof. intros H. simpl. rewrite H. reflexivity. Qed.

Lemma readWhiteSpace_stay c text :
  Ascii_isSpace c = false ->
  readWhiteSpace {| buf := String c text; good := true |}
  = (tt, {| buf := String c text; good := true |}).
Proof.
  intros H. apply readWhiteSpace_to. unfold pending. cbn [good buf].
  apply skipSpaces_stay, H.
Qed.

Lemma query_token_inv q :
  query_token q = true ->
  exists c q', q = String c q' /\ Ascii_isSpace c = false.
Proof.
  unfold query_token. intros Hq. apply andb_prop in Hq. destruct Hq as [Hne Hall].
  destruct q as [|c q']; [discriminate|]. exists c, q'. split; [reflexivity|].
  cbn [string_forall] in Hall. apply andb_prop in Hall.
  destruct Hall as [Hc _]. apply token_char_inv in Hc. apply Hc.
Qed.

Lemma word_token_inv w :
  word_token w = true ->
  string_forall no_space w = true
  /\ exists c w', w = String c w' /\ Ascii_isSpace c = false.
Proof.
  unfold word_token. intros Hw. apply andb_prop in Hw. destruct Hw as [Hne Hall].
  split; [exact Hall|].
  destruct w as [|c w']; [discriminate|]. exists c, w'. split; [reflexivity|].
  cbn [string_forall] in Hall. apply andb_prop in Hall.
  destruct Hall as [Hc _]. unfold no_space in Hc.
  destruct (Ascii_isSpace c); [discriminate|reflexivity].
Qed.

(** Settles the comparisons of a given command word in the command chain. *)
Ltac decide_keyword :=
  repeat first
    [ let H := fresh in destruct (decide _) as [H|_]; [discriminate H|]
    | let H := fresh in destruct (decide _) as [_|H]; [|congruence]
    | rewrite bool_decide_eq_false_2 by discriminate
    | rewrite bool_decide_eq_true_2 by reflexivity ].

(** The arguments of the four commands that take one query. *)
Lemma readCommandArguments_query c q s s' :
  c = CmdEcho q \/ c = CmdElsif q \/ c = CmdIf q \/ c = CmdIfexist q ->
  readQuery s = (q, s') ->
  string_empty q = false ->
  readCommandArguments (keyword_of c) s = (Done c, s').
Proof.
  intros Hc Hq Hne.
  destruct Hc as [->|[->|[->| ->]]]; unfold readCommandArguments, keyword_of;
    decide_keyword; cbn [orb]; unfold mbind, Scan_bind; rewrite Hq;
    unfold mret, Scan_ret; rewrite Hne; reflexivity.
Qed.

(** What the scanner reads of a directive in source form, up to its
    closer. *)
Lemma directive_reads c rest :
  command_ok c = true ->
  exists s2 s3 s4,
    readTemplateCommand
      {| buf := " " +:+ keyword_of c +:+ " " +:+ arguments_of c +:+ "?>" +:+ rest;
         good := true |} = (keyword_of c, s2)
    /\ readWhiteSpace s2 = (tt, s3)
    /\ readCommandArguments (keyword_of c) s3 = (Done c, s4)
    /\ skipSpaces (pending s4) = "?>" +:+ rest.
Proof.
  intros Hok.
  assert (Hquery : forall q,
    c = CmdEcho q \/ c = CmdElsif q \/ c = CmdIf q \/ c = CmdIfexist q ->
    query_token q = true ->
    forall k kw, keyword_of c = String k kw ->
    string_forall token_char (String k kw) = true -> k <> "="%char ->
    arguments_of c = q +:+ " " ->
    exists s2 s3 s4,
      readTemplateCommand
        {| buf := " " +:+ keyword_of c +:+ " " +:+ arguments_of c +:+ "?>" +:+ rest;
           good := true |} = (keyword_of c, s2)
      /\ readWhiteSpace s2 = (tt, s3)
      /\ readCommandArguments (keyword_of c) s3 = (Done c, s4)
      /\ skipSpaces (pending s4) = "?>" +:+ rest).
  { intros q Hc Hq k kw Hkw Htok Hk Hargs.
    destruct (query_token_inv q Hq) as (c0 & q' & Hq0 & Hc0).
    exists {| buf := q +:+ String " " ("?>" +:+ rest); good := true |},
           {| buf := q +:+ String " " ("?>" +:+ rest); good := true |},
           {| buf := "?>" +:+ rest; good := true |}.
    split; [|split; [|split]].
    - rewrite Hargs, Hkw, !append_assoc.
      exact (readTemplateCommand_word k kw " " _ Htok Hk eq_refl).
    - rewrite Hq0, append_String. apply readWhiteSpace_stay, Hc0.
    - apply (readCommandArguments_query c q); [exact Hc| |].
      + exact (readQuery_token q " " ("?>" +:+ rest) Hq eq_refl).
      + rewrite Hq0. reflexivity.
    - reflexivity. }
  destruct c as [q|x q| |q| | |q|q|f]; cbn [command_ok] in Hok.
  - exact (Hquery q (or_introl eq_refl) Hok "e"%char "cho" eq_refl eq_refl
             ltac:(discriminate) eq_refl).
  - apply andb_prop in Hok. destruct Hok as [Hx Hq].
    destruct (word_token_inv x Hx) as (Hxs & cx & x' & Hx0 & Hcx).
    destruct (query_token_inv q Hq) as (c0 & q' & Hq0 & Hc0).
    exists {| buf := x +:+ String " " (q +:+ String " " ("?>" +:+ rest)); good := true |},
           {| buf := x +:+ String " " (q +:+ String " " ("?>" +:+ rest)); good := true |},
           {| buf := "?>" +:+ rest; good := true |}.
    split; [|split; [|split]].
    + cbn [keyword_of arguments_of]. rewrite !append_assoc.
      exact (readTemplateCommand_word "f" "or" " " _ eq_refl ltac:(discriminate) eq_refl).
    + rewrite Hx0, append_String. apply readWhiteSpace_stay, Hcx.
    + unfold readCommandArguments, keyword_of. decide_keyword.
      unfold mbind, Scan_bind.
      rewrite (readWord_exact x " " _ Hxs eq_refl).
      assert (Hne : string_empty x = false) by (rewrite Hx0; reflexivity).
      rewrite Hne.
      rewrite (readWhiteSpace_to _ c0 (q' +:+ String " " ("?>" +:+ rest))).
      * rewrite <- append_String, <- Hq0.
        rewrite (readQuery_token q " " ("?>" +:+ rest) Hq eq_refl).
        unfold mret, Scan_ret. rewrite Hq0. reflexivity.
      * unfold pending. cbn [good buf]. rewrite Hq0, append_String.
        cbn [skipSpaces]. change (Ascii_isSpace " ") with true. cbn iota.
        rewrite Hc0. reflexivity.
    + reflexivity.
  - exists {| buf := "?>" +:+ rest; good := true |},
           {| buf := "?>" +:+ rest; good := true |},
           {| buf := "?>" +:+ rest; good := true |}.
    split; [|split; [|split]]; reflexivity.
  - exact (Hquery q (or_intror (or_introl eq_refl)) Hok "e"%char "lsif" eq_refl
             eq_refl ltac:(discriminate) eq_refl).
  - exists {| buf := "?>" +:+ rest; good := true |},
           {| buf := "?>" +:+ rest; good := true |},
           {| buf := "?>" +:+ rest; good := true |}.
    split; [|split; [|split]]; reflexivity.
  - exists {| buf := "?>" +:+ rest; good := true |},
           {| buf := "?>" +:+ rest; good := true |},
           {| buf := "?>" +:+ rest; good := true |}.
    split; [|split; [|split]]; reflexivity.
  - exact (Hquery q (or_intror (or_intror (or_introl eq_refl))) Hok "i"%char "f"
             eq_refl eq_refl ltac:(discriminate) eq_refl).
  - exact (Hquery q (or_intror (or_intror (or_intror eq_refl))) Hok "i"%char
             "fexist" eq_refl eq_refl ltac:(discriminate) eq_refl).
  - unfold name_token in Hok. apply andb_prop in Hok. destruct Hok as [Hne Hf].
    apply negb_true_iff in Hne.
    exists {| buf := String quote (f +:+ String quote (" ?>" +:+ rest)); good := true |},
           {| buf := String quote (f +:+ String quote (" ?>" +:+ rest)); good := true |},
           {| buf := " ?>" +:+ rest; good := true |}.
    split; [|split; [|split]].
    + cbn [keyword_of arguments_of]. unfold quoted. rewrite !append_assoc.
      exact (readTemplateCommand_word "i" "nclude" " " _ eq_refl ltac:(discriminate) eq_refl).
    + exact (readWhiteSpace_stay quote _ eq_refl).
    + unfold readCommandArguments, keyword_of. decide_keyword. cbn [orb].
      unfold mbind, Scan_bind.
      rewrite (readWhiteSpace_stay quote _ eq_refl).
      rewrite (readString_quoted f _ Hf). unfold mret, Scan_ret. rewrite Hne.
      reflexivity.
    + reflexivity.
Qed.

(** A directive in source form is not empty. *)
Lemma unparse_command_length c rest :
  exists n, String.length (unparse_command c +:+ rest) = S n
            /\ String.length rest <= n.
Proof.
  unfold unparse_command. rewrite !length_append. simpl. eexists.
  split; [reflexivity|]. lia.
Qed.

(** The source of items that may follow a directive loses no line end to
    it. *)
Lemma unparse_keeps items :
  printable true items = true ->
  dropLF (dropCR (unparse items)) = unparse items.
Proof.
  destruct items as [|[text|c] rest]; [reflexivity| |reflexivity].
  cbn [printable unparse unparse_item]. intros H.
  repeat (apply andb_prop in H; destruct H as [H ?]).
  destruct text as [|c0 text]; [discriminate|].
  rewrite append_String. cbn [begins_newline andb] in *.
  match goal with Hn : negb _ = true |- _ =>
    apply negb_true_iff, orb_false_elim in Hn; destruct Hn as [Hcr Hlf] end.
  apply bool_decide_eq_false in Hcr, Hlf.
  unfold dropCR. destruct (decide (c0 = "013"%char)); [contradiction|].
  unfold dropLF. destruct (decide (c0 = "010"%char)); [contradiction|].
  reflexivity.
Qed.

Section Unparsing.
Context `{FS : FileSystem}.
Variable templatePath : Path.

(** One round of the parse loop on a text and a directive in source form. *)
Lemma parse_loop_directive c text rest s :
  ~ has_opener text ->
  command_ok c = true ->
  pending s = text +:+ unparse_command c +:+ rest ->
  exists s5,
    pending s5 = (if swallows_newline c then dropLF (dropCR rest) else rest)
    /\ forall fuel b,
         parse_loop (S fuel) templatePath b s
         = (b' ← Builder_apply templatePath c
                   {| _currentPart := _currentPart b ++ text_parts text;
                      _partStack := _partStack b |};
            parse_loop fuel templatePath b' s5).
Proof.
  intros Hfree Hok Hs.
  destruct (directive_reads c rest Hok) as (s2 & s3 & s4 & Hcmd & Hws & Hargs & Hend).
  unfold unparse_command in Hs. rewrite !append_assoc in Hs.
  pose proof (pending_append s text "<"%char
                ("?" +:+ " " +:+ keyword_of c +:+ " " +:+ arguments_of c
                 +:+ "?>" +:+ rest) Hs) as ->.
  assert (Hclose : exists s5,
            closeDirective (keyword_of c) s4 = (Done tt, s5)
            /\ pending s5
               = (if swallows_newline c then dropLF (dropCR rest) else rest)).
  { unfold swallows_newline.
    destruct (bool_decide (keyword_of c = "echo")) eqn:Hecho; cbn [negb].
    - apply bool_decide_eq_true in Hecho. rewrite Hecho.
      exact (closeDirective_echo s4 rest Hend).
    - apply bool_decide_eq_false in Hecho.
      exact (closeDirective_swallow (keyword_of c) s4 rest Hecho Hend). }
  destruct Hclose as (s5 & Hclose & Hpending).
  exists s5. split; [exact Hpending|]. intros fuel b.
  apply (parse_loop_round_bind fuel templatePath b _ text
           {| buf := " " +:+ keyword_of c +:+ " " +:+ arguments_of c
                     +:+ "?>" +:+ rest; good := true |}
           (keyword_of c) s2 s3 c s4 s5).
  - reflexivity.
  - exact (readText_split text _ Hfree).
  - exact Hcmd.
  - destruct c; reflexivity.
  - exact Hws.
  - exact Hargs.
  - exact Hclose.
Qed.

(** The parse loop on the source of a sequence of items. *)
Lemma parse_loop_unparse :
  forall n items, length items <= n ->
  forall swallows fuel b s,
    printable swallows items = true ->
    pending s = unparse items ->
    remaining s < fuel ->
    parse_loop fuel templatePath b s = build templatePath items b.
Proof.
  assert (Hsame : forall b : Builder,
            {| _currentPart := _currentPart b ++ text_parts "";
               _partStack := _partStack b |} = b).
  { intros [current stack]. simpl. rewrite app_nil_r. reflexivity. }
  induction n as [|n IH]; intros items Hlen swallows fuel b s Hok Hs Hfuel.
  { destruct items; [|simpl in Hlen; lia].
    destruct fuel; [lia|]. rewrite parse_loop_literal.
    - simpl in Hs. rewrite Hs. simpl. f_equal. apply Hsame.
    - rewrite Hs. exact no_opener_empty. }
  destruct fuel as [|fuel]; [lia|].
  destruct items as [|[text|c] rest].
  - rewrite parse_loop_literal.
    + simpl in Hs. rewrite Hs. simpl. f_equal. apply Hsame.
    + rewrite Hs. exact no_opener_empty.
  - cbn [printable] in Hok.
    repeat (apply andb_prop in Hok; destruct Hok as [Hok ?]).
    assert (Hfree : ~ has_opener text) by (apply opener_free_correct; assumption).
    assert (Htext : text_parts text = [StringPart text]).
    { unfold text_parts. destruct text; [discriminate|]. reflexivity. }
    destruct rest as [|[text'|c] rest]; [| discriminate |].
    + rewrite parse_loop_literal.
      * cbn [unparse unparse_item] in Hs. rewrite append_empty_r in Hs.
        rewrite Hs, Htext. reflexivity.
      * cbn [unparse unparse_item] in Hs. rewrite append_empty_r in Hs.
        rewrite Hs. exact Hfree.
    + cbn [printable] in *. cbn [unparse unparse_item] in Hs.
      match goal with Hp : command_ok c && _ = true |- _ =>
        apply andb_prop in Hp; destruct Hp as [Hc Hrest] end.
      destruct (parse_loop_directive c text (unparse rest) s Hfree Hc Hs)
        as (s5 & Hpending & Hround).
      rewrite Hround, Htext. cbn [build Builder_item]. unfold addPart.
      unfold mbind at 2, Outcome_bind at 2. 
      destruct (Builder_apply templatePath c _) as [b'| | |]; try reflexivity.
      unfold mbind, Outcome_bind.
      apply (IH rest ltac:(simpl in Hlen; lia) (swallows_newline c)).
      * exact Hrest.
      * rewrite Hpending. destruct (swallows_newline c); [|reflexivity].
        apply unparse_keeps, Hrest.
      * assert (Hlen5 : remaining s5 <= String.length (unparse rest)).
        { unfold remaining. rewrite Hpending.
          destruct (swallows_newline c); [|lia].
          rewrite unparse_keeps by exact Hrest. lia. }
        unfold remaining in Hfuel. rewrite Hs in Hfuel.
        destruct (unparse_command_length c (unparse rest)) as (m & Hm & Hle).
        rewrite length_append in Hfuel. rewrite Hm in Hfuel. lia.
  - cbn [printable] in Hok. cbn [unparse unparse_item] in Hs.
    apply andb_prop in Hok. destruct Hok as [Hc Hrest].
    destruct (parse_loop_directive c "" (unparse rest) s no_opener_empty Hc Hs)
      as (s5 & Hpending & Hround).
    rewrite Hround, Hsame. cbn [build Builder_item].
    destruct (Builder_apply templatePath c b) as [b'| | |]; try reflexivity.
    unfold mbind, Outcome_bind.
    apply (IH rest ltac:(simpl in Hlen; lia) (swallows_newline c)).
    + exact Hrest.
    + rewrite Hpending. destruct (swallows_newline c); [|reflexivity].
      apply unparse_keeps, Hrest.
    + assert (Hlen5 : remaining s5 <= String.length (unparse rest)).
      { unfold remaining. rewrite Hpending.
        destruct (swallows_newline c); [|lia].
        rewrite unparse_keeps by exact Hrest. lia. }
      unfold remaining in Hfuel. rewrite Hs in Hfuel.
      destruct (unparse_command_length c (unparse rest)) as (m & Hm & Hle).
      rewrite Hm in Hfuel. lia.
Qed.

End Unparsing.

(** * Rendering the trees of simple blocks *)

Section Blocks.
Context `{VM : ValueModel}.
Variable includeRender : Path -> Renderer.

Lemma render_if_else q yes no data out :
  render includeRender
    (MultiPart [LogicPart [LogicValueQuery q; LogicElseQuery]
                  [MultiPart [StringPart yes]; MultiPart [StringPart no]]])
    data out
  = Done (data, out +:+ (if LogicQuery_apply (LogicValueQuery q) data
                         then yes else no)).
Proof.
  cbn [render List.map MultiPart_render]. unfold LogicPart_render.
  cbn [LogicPart_loop length]. 
  destruct (LogicQuery_apply (LogicValueQuery q) data); reflexivity.
Qed.

Lemma LoopPart_loop_text name body elems :
  forall data out,
    exists data',
      LoopPart_loop name (MultiPart_render [StringPart_render body]) elems data out
      = Done (data', out +:+ repeat_text (length elems) body)
      /\ Object_remove name data' = Object_remove name data.
Proof.
  assert (Hbody : forall data out,
            MultiPart_render [StringPart_render body] data out
            = Done (data, out +:+ body)) by reflexivity.
  induction elems as [|value elems IH]; intros data out.
  - exists data. simpl. rewrite append_empty_r. split; reflexivity.
  - destruct (IH (Object_set name value data) (out +:+ body)) as (data' & Hrun & Hsame).
    exists data'. split.
    + cbn [LoopPart_loop]. rewrite Hbody. unfold mbind, Outcome_bind.
      rewrite Hrun. cbn [length repeat_text]. rewrite append_assoc. reflexivity.
    + rewrite Hsame. apply Object_remove_set.
Qed.

Lemma render_for name query body fields elems out :
  Query_find (VObject fields) query = VArray elems ->
  render includeRender (MultiPart [LoopPart name query [StringPart body]])
    (VObject fields) out
  = Done (VObject (delete name fields),
          out +:+ repeat_text (length elems) body).
Proof.
  intros Hfind.
  change (render includeRender (MultiPart [LoopPart name query [StringPart body]])
            (VObject fields) out)
    with ('(data', out') ← LoopPart_render name query
                             (MultiPart_render [StringPart_render body])
                             (VObject fields) out;
          Done (data', out')).
  unfold LoopPart_render. cbn [Var_isObject]. unfold Query_findArray.
  rewrite Hfind.
  destruct (LoopPart_loop_text name body elems (VObject fields) out)
    as (data' & Hrun & Hsame).
  rewrite Hrun. unfold mbind, Outcome_bind. cbn iota beta.
  change (VObject (delete name fields)) with (Object_remove name (VObject fields)).
  rewrite Hsame. reflexivity.
Qed.

End Blocks.

(** * The shape of the tree under construction *)

Lemma forallb_snoc {A} (f : A -> bool) xs x :
  forallb f (xs ++ [x]) = forallb f xs && f x.
Proof. rewrite forallb_app. simpl. rewrite andb_true_r. reflexivity. Qed.

(** The arguments a directive is read with are not empty. *)
Lemma readCommandArguments_arguments command s c :
  (readCommandArguments command s).1 = Done c -> arguments_ok c = true.
Proof.
  unfold readCommandArguments.
  repeat (destruct (decide _) || destruct (bool_decide _ || bool_decide _));
    unfold mbind, Scan_bind, mret, Scan_ret;
    repeat match goal with
           | |- context [readQuery ?s] => destruct (readQuery s) as [? ?]
           | |- context [readWord ?s] => destruct (readWord s) as [? ?]
           | |- context [readString ?s] => destruct (readString s) as [? ?]
           | |- context [readWhiteSpace ?s] => destruct (readWhiteSpace s) as [[] ?]
           | |- context [string_empty ?w] => destruct (string_empty w) eqn:?
           end;
    simpl; intros H; try discriminate; injection H as <-; simpl;
    repeat match goal with H : string_empty _ = false |- _ => rewrite H end;
    reflexivity.
Qed.

(** Closing a block and closing the whole stack keep the shape. *)
Lemma Frame_close_ok f current :
  Frame_ok f = true -> forallb well_built current = true ->
  forallb well_built (Frame_close f current) = true.
Proof.
  unfold Frame_ok, Frame_close. intros Hf Hcurrent.
  apply andb_prop in Hf. destruct Hf as [Henc Hblock].
  rewrite forallb_snoc, Henc. cbn [andb].
  destruct (block f) as [queries branches|name query]; cbn [well_built].
  - repeat (apply andb_prop in Hblock; destruct Hblock as [Hblock ?]).
    apply bool_decide_eq_true in Hblock.
    rewrite forallb_snoc. cbn [well_built].
    rewrite length_app. cbn [length].
    rewrite bool_decide_eq_true_2 by lia.
    repeat (apply andb_true_intro; split); assumption || reflexivity.
  - rewrite Hblock. exact Hcurrent.
Qed.

Lemma Builder_root_ok stack :
  forall current,
    forallb well_built current = true -> forallb Frame_ok stack = true ->
    forallb well_built (Builder_root current stack) = true.
Proof.
  induction stack as [|f stack IH]; intros current Hcurrent Hstack; [exact Hcurrent|].
  cbn [forallb] in Hstack. apply andb_prop in Hstack. destruct Hstack as [Hf Hstack].
  cbn [Builder_root]. apply IH; [|exact Hstack].
  apply Frame_close_ok; assumption.
Qed.

Section Shape.
Context `{FS : FileSystem}.

(** Each branch of the command chain keeps the shape. *)
Lemma Builder_apply_ok templatePath c b b' :
  arguments_ok c = true -> Builder_ok b = true ->
  Builder_apply templatePath c b = Done b' -> Builder_ok b' = true.
Proof.
  unfold Builder_ok. intros Hc Hb Happly.
  apply andb_prop in Hb. destruct Hb as [Hcurrent Hstack].
  destruct b as [current stack]. cbn [_currentPart _partStack] in *.
  destruct c; cbn [Builder_apply _currentPart _partStack arguments_ok] in *;
    try (destruct stack as [|[enc [qs bs|loopName loopQuery]] stack];
         cbn [block enclosing] in *; try discriminate;
         cbn [forallb] in Hstack; apply andb_prop in Hstack;
         destruct Hstack as [Hf Hstack]);
    injection Happly as <-; cbn [_currentPart _partStack forallb addPart].
  - rewrite forallb_snoc, Hcurrent, Hstack. cbn [well_built]. rewrite Hc. reflexivity.
  - rewrite Hstack. unfold Frame_ok. cbn [enclosing block].
    rewrite Hcurrent, Hc. reflexivity.
  - rewrite Hstack. unfold Frame_ok in *. cbn [enclosing block] in *.
    apply andb_prop in Hf. destruct Hf as [Henc Hblock].
    apply andb_prop in Hblock. destruct Hblock as [Hblock Hbranches].
    apply andb_prop in Hblock. destruct Hblock as [Hlen Hguards].
    apply bool_decide_eq_true in Hlen.
    rewrite !forallb_snoc, !length_app. cbn [length well_built guard_ok].
    rewrite bool_decide_eq_true_2 by lia.
    repeat (apply andb_true_intro; split); assumption || reflexivity.
  - rewrite Hstack. unfold Frame_ok in *. cbn [enclosing block] in *.
    apply andb_prop in Hf. destruct Hf as [Henc Hblock].
    apply andb_prop in Hblock. destruct Hblock as [Hblock Hbranches].
    apply andb_prop in Hblock. destruct Hblock as [Hlen Hguards].
    apply bool_decide_eq_true in Hlen.
    rewrite !forallb_snoc, !length_app. cbn [length well_built guard_ok].
    rewrite bool_decide_eq_true_2 by lia.
    repeat (apply andb_true_intro; split); assumption || reflexivity.
  - rewrite Hstack, andb_true_r.
    apply Frame_close_ok; assumption.
  - rewrite Hstack, andb_true_r.
    apply Frame_close_ok; assumption.
  - rewrite Hstack. unfold Frame_ok. cbn [enclosing block forallb guard_ok length].
    rewrite Hcurrent, Hc. reflexivity.
  - rewrite Hstack. unfold Frame_ok. cbn [enclosing block forallb guard_ok length].
    rewrite Hcurrent, Hc. reflexivity.
  - rewrite forallb_snoc, Hcurrent, Hstack. reflexivity.
Qed.

(** The parse loop keeps the shape. *)
Lemma parse_loop_ok templatePath fuel :
  forall b s b',
    Builder_ok b = true ->
    parse_loop fuel templatePath b s = Done b' -> Builder_ok b' = true.
Proof.
  induction fuel as [|fuel IH]; intros b s b' Hb Hparse; [discriminate|].
  cbn [parse_loop] in Hparse.
  destruct (good s); [|injection Hparse as <-; exact Hb].
  destruct (readText s) as [text s1].
  set (b1 := if bool_decide (0 < String.length text)
             then addPart (StringPart text) b else b) in Hparse.
  assert (Hb1 : Builder_ok b1 = true).
  { subst b1. destruct (bool_decide (0 < String.length text)) eqn:Htext; [|exact Hb].
    apply bool_decide_eq_true in Htext. unfold Builder_ok in *.
    apply andb_prop in Hb. destruct Hb as [Hcurrent Hstack].
    cbn [addPart _currentPart _partStack]. rewrite forallb_snoc, Hcurrent, Hstack.
    destruct text; [simpl in Htext; lia|reflexivity]. }
  cbn [bad] in Hparse.
  destruct (readTemplateCommand s1) as [command s2].
  destruct (string_empty command); [injection Hparse as <-; exact Hb1|].
  destruct (readWhiteSpace s2) as [[] s3].
  pose proof (readCommandArguments_arguments command s3) as Hargs.
  destruct (readCommandArguments command s3) as [arguments s4].
  destruct arguments as [c| | |]; try discriminate.
  specialize (Hargs c eq_refl).
  unfold mbind at 1, Outcome_bind at 1 in Hparse.
  destruct (Builder_apply templatePath c b1) as [b2| | |] eqn:Happly;
    try discriminate.
  unfold mbind at 1, Outcome_bind at 1 in Hparse.
  destruct (closeDirective command s4) as [closed s5].
  destruct closed as [[]| | |]; try discriminate.
  unfold mbind at 1, Outcome_bind at 1 in Hparse.
  apply (IH b2 s5 b'); [|exact Hparse].
  exact (Builder_apply_ok templatePath c b1 b2 Hargs Hb1 Happly).
Qed.

End Shape.

(** * More cases of the scanner *)

Lemma readTemplateCommand_echo s rest :
  skipSpaces (pending s) = String "=" rest ->
  readTemplateCommand s = ("echo", {| buf := rest; good := true |}).
Proof.
  intros H. unfold readTemplateCommand, mbind, Scan_bind.
  rewrite (readWhiteSpace_to s "=" rest H).
  unfold get. cbn [good buf].
  rewrite readTemplateCommand_loop_step. reflexivity.
Qed.

Lemma readString_unquoted c rest :
  c <> quote ->
  readString {| buf := String c rest; good := true |}
  = ("", {| buf := rest; good := true |}).
Proof.
  intros Hc. unfold readString, mbind, Scan_bind, get. cbn [good buf].
  destruct (decide (Some c = Some quote)) as [Heq|_]; [|reflexivity].
  injection Heq as ->. contradiction.
Qed.

Lemma readString_unclosed f :
  string_forall no_quote f = true ->
  readString {| buf := String quote f; good := true |} = (f, at_eof).
Proof.
  intros Hf. unfold readString, mbind, Scan_bind, get. cbn [good buf].
  destruct (decide (Some quote = Some quote)); [|congruence].
  rewrite (readString_loop_open _ "" f); [reflexivity| |assumption].
  cbn [String.length]. lia.
Qed.

Lemma readTemplateCommand_closer s rest :
  skipSpaces (pending s) = "?>" +:+ rest ->
  readTemplateCommand s = ("", {| buf := "?>" +:+ rest; good := true |}).
Proof.
  intros H. unfold readTemplateCommand, mbind, Scan_bind.
  rewrite (readWhiteSpace_to s "?" (String ">" rest) H).
  unfold get. cbn [good buf].
  rewrite readTemplateCommand_loop_step. reflexivity.
Qed.

Lemma readTemplateCommand_word_after s c w sp rest :
  string_forall token_char (String c w) = true ->
  c <> "="%char ->
  Ascii_isSpace sp = true ->
  skipSpaces (pending s) = String c w +:+ String sp rest ->
  readTemplateCommand s = (String c w, {| buf := rest; good := true |}).
Proof.
  intros Hw Hc Hsp H. unfold readTemplateCommand, mbind, Scan_bind.
  rewrite append_String in H.
  rewrite (readWhiteSpace_to s c _ H).
  unfold get. cbn [good buf].
  rewrite (readTemplateCommand_loop_word w _ "" c sp rest); [reflexivity| |auto..].
  pose proof (skipSpaces_length (pending s)) as Hlen.
  pose proof (remaining_buf s) as Hbuf. unfold remaining in Hbuf.
  rewrite H in Hlen. cbn [String.length] in Hlen. rewrite length_append in Hlen.
  lia.
Qed.

Lemma skipSpaces_all ws :
  string_forall Ascii_isSpace ws = true -> skipSpaces ws = "".
Proof.
  intros Hws. rewrite <- (append_empty_r ws).
  rewrite skipSpaces_spaces by assumption. reflexivity.
Qed.

(** * Command words that are read alike *)

(** The closer is read in the same way after every command but [echo]. *)
Lemma closeDirective_not_echo command command' s :
  command <> "echo" -> command' <> "echo" ->
  closeDirective command s = closeDirective command' s.
Proof.
  intros H H'. unfold closeDirective.
  destruct (decide (command = "echo")); [contradiction|].
  destruct (decide (command' = "echo")); [contradiction|].
  reflexivity.
Qed.

(** The parse loop on two streams that give the same text, then the same
    directive under two command words that close alike. *)
Lemma parse_loop_from_arguments `{FS : FileSystem} fuel fuel' templatePath b
    s s' text s1 s1' command command' s2 s2' s3 s3' arguments s4 :
  good s = true -> good s' = true ->
  readText s = (text, s1) -> readText s' = (text, s1') ->
  readTemplateCommand s1 = (command, s2) ->
  readTemplateCommand s1' = (command', s2') ->
  string_empty command = false -> string_empty command' = false ->
  readWhiteSpace s2 = (tt, s3) -> readWhiteSpace s2' = (tt, s3') ->
  readCommandArguments command s3 = (arguments, s4) ->
  readCommandArguments command' s3' = (arguments, s4) ->
  closeDirective command s4 = closeDirective command' s4 ->
  remaining s4 < fuel -> remaining s4 < fuel' ->
  parse_loop (S fuel) templatePath b s = parse_loop (S fuel') templatePath b s'.
Proof.
  intros Hgood Hgood' Htext Htext' Hcommand Hcommand' Hne Hne' Hws Hws'
    Hargs Hargs' Hclose Hfuel Hfuel'.
  simpl. rewrite Hgood, Hgood', Htext, Htext', Hcommand, Hcommand', Hne, Hne',
    Hws, Hws', Hargs, Hargs', <- Hclose.
  destruct arguments as [c| | |]; simpl; try reflexivity.
  match goal with
  | |- context [Builder_apply templatePath c ?b0] =>
      destruct (Builder_apply templatePath c b0) as [b'| | |]
  end; simpl; try reflexivity.
  pose proof (closeDirective_remaining command s4) as H5.
  destruct (closeDirective command s4) as [closed s5]. simpl in H5.
  destruct closed as [[]| | |]; simpl; try reflexivity.
  apply parse_loop_fuel; lia.
Qed.

(** The parse of the source text of a sequence of items is the building
    of the items. *)
Lemma Template_parse_unparse `{FS : FileSystem} tpl items :
  printable false items = true ->
  Template_parse tpl (unparse items)
  = (b ← build (_templatePath tpl) items {| _currentPart := []; _partStack := [] |};
     mret {| _templatePath := _templatePath tpl; _tree := Some b |}).
Proof.
  intros Hok. unfold Template_parse.
  rewrite (parse_loop_unparse (_templatePath tpl) (length items) items
             (Nat.le_refl _) false _ _ (istream_of (unparse items)) Hok eq_refl).
  - reflexivity.
  - unfold remaining, pending. simpl. lia.
Qed.

(** * The claims *)

(** C1. Guard evaluation: a value guard is false when the path finds
    nothing; on a string value it holds exactly when the string is not
    empty, whatever its content; on any other value it is the boolean
    conversion of the value model. An exist guard holds exactly when the
    path finds something. The guard of an else branch always holds. *)
Theorem guard_evaluation_contract (VM : ValueModel) :
  (forall data path,
     Query_find data path = VEmpty ->
     LogicQuery_apply (LogicValueQuery path) data = false)
  /\ (forall data path s,
        Query_find data path = VString s ->
        (LogicQuery_apply (LogicValueQuery path) data = true <-> s <> ""))
  /\ (forall data path,
        Var_isEmpty (Query_find data path) = false ->
        Var_isString (Query_find data path) = false ->
        LogicQuery_apply (LogicValueQuery path) data
        = convert_bool (Query_find data path))
  /\ (forall data path,
        LogicQuery_apply (LogicExistQuery path) data = true
        <-> Query_find data path <> VEmpty)
  /\ (forall data, LogicQuery_apply LogicElseQuery data = true).
Proof.
  repeat split.
  - intros data path H. simpl. rewrite H. reflexivity.
  - simpl. rewrite H. simpl. rewrite convert_string_VString.
    destruct s; simpl; congruence.
  - simpl. rewrite H. simpl. rewrite convert_string_VString.
    destruct s; simpl; congruence.
  - intros data path He Hs. simpl. rewrite He, Hs. reflexivity.
  - simpl. destruct (Query_find data path); simpl; congruence.
  - simpl. destruct (Query_find data path); simpl; congruence.
Qed.

Lemma guard_evaluation_contract_witness :
  LogicQuery_apply (VM := Json) (LogicValueQuery "absent") guard_data = false
  /\ LogicQuery_apply (VM := Json) (LogicValueQuery "zero") guard_data = true
  /\ LogicQuery_apply (VM := Json) (LogicValueQuery "no") guard_data = true
  /\ ~ LogicQuery_apply (VM := Json) (LogicValueQuery "e") guard_data = true
  /\ LogicQuery_apply (VM := Json) (LogicValueQuery "n") guard_data = false
  /\ LogicQuery_apply (VM := Json) (LogicExistQuery "n") guard_data = true.
Proof.
  destruct (guard_evaluation_contract Json)
    as (Hempty & Hstring & Hother & Hexist & _).
  split; [apply Hempty; reflexivity|].
  split; [apply (Hstring guard_data "zero" "0"); [reflexivity | discriminate]|].
  split; [apply (Hstring guard_data "no" "false"); [reflexivity | discriminate]|].
  split.
  { intros H. apply (Hstring guard_data "e" "") in H; [congruence | reflexivity]. }
  split; [rewrite Hother; reflexivity|].
  apply Hexist. vm_compute. discriminate.
Defined.

(** C2. Conditional dispatch: a conditional renders the body paired with
    the first guard, in the order the branches were added, that holds, and
    nothing else; when no guard holds the data and the output are as
    before. [<? if a ?>A<? elsif b ?>B<? else ?>C<? endif ?>] against
    [{"a":"","b":"1"}] gives [B]. *)
Theorem conditional_dispatch :
  (forall (VM : ValueModel) includeRender before q after bodies body rest
          data out,
     length bodies = length before ->
     Forall (fun g => LogicQuery_apply g data = false) before ->
     LogicQuery_apply q data = true ->
     render includeRender
       (LogicPart (before ++ q :: after) (bodies ++ body :: rest)) data out
     = render includeRender body data out)
  /\ (forall (VM : ValueModel) includeRender queries parts data out,
        Forall (fun g => LogicQuery_apply g data = false) queries ->
        render includeRender (LogicPart queries parts) data out
        = Done (data, out))
  /\ (forall (FS : FileSystem) templatePath includeRender,
        exists tpl,
          Template_parse (Template_new templatePath)
            "<? if a ?>A<? elsif b ?>B<? else ?>C<? endif ?>" = Done tpl
          /\ Template_render (VM := Json) includeRender tpl ab_data ""
             = Done (ab_data, "B")).
Proof.
  split; [|split].
  - intros VM inc before q after bodies body rest data out Hlen Hbefore Hq.
    simpl. unfold LogicPart_render.
    apply LogicPart_loop_first; [assumption..|].
    rewrite map_app. simpl.
    rewrite <- Hlen, <- (length_map (render inc) bodies).
    apply list_lookup_middle. reflexivity.
  - intros VM inc queries parts data out H. simpl.
    apply LogicPart_loop_none, H.
  - intros FS templatePath inc. eexists. split; [vm_compute; reflexivity|].
    vm_compute. reflexivity.
Qed.

Lemma conditional_dispatch_witness :
  render (VM := Json) noInclude
    (LogicPart [LogicValueQuery "a"; LogicValueQuery "b"; LogicElseQuery]
       [MultiPart [StringPart "A"]; MultiPart [StringPart "B"];
        MultiPart [StringPart "C"]]) ab_data ""
  = render (VM := Json) noInclude (MultiPart [StringPart "B"]) ab_data ""
  /\ render (VM := Json) noInclude
       (LogicPart [LogicValueQuery "a"; LogicExistQuery "c"]
          [MultiPart [StringPart "A"]; MultiPart [StringPart "C"]]) ab_data "x"
     = Done (ab_data, "x").
Proof.
  destruct conditional_dispatch as (Hfirst & Hnone & _).
  split.
  - apply (Hfirst Json noInclude [LogicValueQuery "a"] (LogicValueQuery "b")
             [LogicElseQuery] [MultiPart [StringPart "A"]]
             (MultiPart [StringPart "B"]) [MultiPart [StringPart "C"]]).
    + reflexivity.
    + repeat constructor.
    + reflexivity.
  - apply Hnone. repeat constructor.
Defined.

(** C3. Loop rendering: on an object in which the query path finds an
    array, a loop renders its body once for each element in index order,
    with the loop variable set to the element in the data, and then removes
    the loop variable; on data that is not an object, or when the path
    finds no array, it renders nothing. [<? for x items ?><?= x ?>,<? endfor ?>]
    against [{"items":[1,2,3]}] gives [1,2,3,] and leaves no field [x]. *)
Theorem loop_rendering :
  (forall (VM : ValueModel) includeRender name query parts data out elems,
     Var_isObject data = true ->
     Query_find data query = VArray elems ->
     render includeRender (LoopPart name query parts) data out
     = ('(data', out') ←
          render_elements name (render includeRender (MultiPart parts))
            elems data out;
        Done (Object_remove name data', out')))
  /\ (forall name value data,
        Var_isObject data = true ->
        Object_get name (Object_set name value data) = Some value)
  /\ (forall (VM : ValueModel) includeRender name query parts data out,
        Var_isObject data = false ->
        render includeRender (LoopPart name query parts) data out
        = Done (data, out))
  /\ (forall (VM : ValueModel) includeRender name query parts data out,
        (forall elems, Query_find data query <> VArray elems) ->
        render includeRender (LoopPart name query parts) data out
        = Done (data, out))
  /\ (forall (FS : FileSystem) templatePath includeRender,
        exists tpl,
          Template_parse (Template_new templatePath)
            "<? for x items ?><?= x ?>,<? endfor ?>" = Done tpl
          /\ Template_render (VM := Json) includeRender tpl items_data ""
             = Done (items_data, "1,2,3,")
          /\ Object_get "x" items_data = None).
Proof.
  split; [|split; [|split; [|split]]].
  - intros VM inc name query parts data out elems Hobj Hfind.
    simpl. unfold LoopPart_render, Query_findArray. rewrite Hobj, Hfind.
    rewrite LoopPart_loop_elements. reflexivity.
  - intros name value [] Hobj; try discriminate. simpl.
    apply lookup_insert_eq.
  - intros VM inc name query parts data out Hobj.
    simpl. unfold LoopPart_render. rewrite Hobj. reflexivity.
  - intros VM inc name query parts data out Hfind.
    simpl. unfold LoopPart_render, Query_findArray.
    destruct (Var_isObject data); [|reflexivity].
    destruct (Query_find data query); try reflexivity.
    exfalso. eapply Hfind. reflexivity.
  - intros FS templatePath inc. eexists.
    split; [vm_compute; reflexivity|].
    split; [vm_compute; reflexivity|].
    vm_compute. reflexivity.
Qed.

Lemma loop_rendering_witness :
  render (VM := Json) noInclude items_loop items_data ""
  = ('(data', out') ←
       render_elements "x"
         (render (VM := Json) noInclude
            (MultiPart [EchoPart "x"; StringPart ","]))
         [VInt 1; VInt 2; VInt 3] items_data "";
     Done (Object_remove "x" data', out'))
  /\ Object_get "x" (Object_set "x" (VInt 1) items_data) = Some (VInt 1)
  /\ render (VM := Json) noInclude items_loop (VArray [VInt 1]) "" 
     = Done (VArray [VInt 1], "")
  /\ render (VM := Json) noInclude items_loop ab_data "" = Done (ab_data, "").
Proof.
  destruct loop_rendering as (Harray & Hbound & Hother & Hnone & _).
  split; [apply (Harray Json); reflexivity|].
  split; [apply Hbound; reflexivity|].
  split; [apply (Hother Json); reflexivity|].
  apply (Hnone Json). intros elems. vm_compute. discriminate.
Defined.











(** C8. Literal text: a source in which the directive opener [<?] does
    not occur parses, and the compiled template renders against any data
    as the source itself. *)
Theorem literal_text_identity (FS : FileSystem) templatePath source :
  ~ has_opener source ->
  exists tpl,
    Template_parse (Template_new templatePath) source = Done tpl
    /\ forall (VM : ValueModel) includeRender data out,
         Template_render includeRender tpl data out
         = Done (data, out +:+ source).
Proof.
  intros Hfree. unfold Template_parse.
  cbn [parse_loop istream_of good _templatePath Template_new].
  rewrite (readText_all source Hfree).
  destruct source as [|c rest].
  - eexists. split; [reflexivity|].
    intros VM inc data out. unfold Template_render. simpl.
    rewrite append_empty_r. reflexivity.
  - eexists. split; [reflexivity|].
    intros VM inc data out. reflexivity.
Qed.

Lemma literal_text_identity_witness :
  exists tpl,
    Template_parse (FS := NoFiles) (Template_new "t") "a < b ? > c <" = Done tpl
    /\ forall (VM : ValueModel) includeRender data out,
         Template_render includeRender tpl data out
         = Done (data, out +:+ "a < b ? > c <").
Proof.
  apply (literal_text_identity NoFiles "t" "a < b ? > c <").
  apply opener_free_correct. reflexivity.
Defined.

(** C9. Unterminated blocks: when the input ends (the loop reads an empty
    command) the parse returns the tree built so far, whatever blocks are
    still open; nothing looks at what is left on the stack. The partial
    tree renders: [<? if a ?>yes<? for x items ?><?= x ?>;] parses with two
    blocks open and renders [yes1;2;] against [{"a":"1","items":[1,2]}]. *)
Theorem unterminated_blocks_accepted :
  (forall (FS : FileSystem) templatePath source items b,
     scan source = (items, Done tt) ->
     build templatePath items {| _currentPart := []; _partStack := [] |}
     = Done b ->
     Template_parse (Template_new templatePath) source
     = Done {| _templatePath := templatePath; _tree := Some b |})
  /\ (forall (VM : ValueModel) (FS : FileSystem) templatePath includeRender
             rest data out,
        ~ has_opener rest ->
        exists tpl b,
          Template_parse (Template_new templatePath) ("<? if a ?>" +:+ rest)
          = Done tpl
          /\ _tree tpl = Some b
          /\ length (_partStack b) = 1
          /\ Template_render includeRender tpl data out
             = Done (data, if LogicQuery_apply (LogicValueQuery "a") data
                           then out +:+ dropLF (dropCR rest) else out))
  /\ (forall (FS : FileSystem) templatePath includeRender,
        exists tpl b,
          Template_parse (Template_new templatePath)
            "<? if a ?>yes<? for x items ?><?= x ?>;" = Done tpl
          /\ _tree tpl = Some b
          /\ length (_partStack b) = 2
          /\ Template_parts tpl
             = Some (MultiPart
                 [LogicPart [LogicValueQuery "a"]
                    [MultiPart
                       [StringPart "yes";
                        LoopPart "x" "items" [EchoPart "x"; StringPart ";"]]]])
          /\ Template_render (VM := Json) includeRender tpl open_data ""
             = Done (open_data, "yes1;2;")).
Proof.
  split; [|split].
  - intros FS templatePath source items b Hscan Hbuild.
    unfold Template_parse, scan in *. cbn [_templatePath Template_new].
    rewrite parse_loop_scan, Hscan, Hbuild. reflexivity.
  - intros VM FS templatePath inc rest data out Hfree.
    eexists. eexists. split; [apply parse_after_if, Hfree|].
    split; [reflexivity|]. split; [reflexivity|].
    apply render_open_if.
  - intros FS templatePath inc. eexists. eexists.
    split; [vm_compute; reflexivity|].
    split; [reflexivity|].
    split; [reflexivity|].
    split; vm_compute; reflexivity.
Qed.

Lemma unterminated_blocks_accepted_witness :
  Template_parse (FS := NoFiles) (Template_new "t") "<? if a ?>yes"
  = Done {| _templatePath := "t";
            _tree := Some {| _currentPart := [StringPart "yes"];
                             _partStack :=
                               [{| enclosing := [];
                                   block := LogicBlock [LogicValueQuery "a"] [] |}]
                          |} |}.
Proof.
  destruct unterminated_blocks_accepted as (Hpartial & _ & _).
  apply (Hpartial NoFiles "t" "<? if a ?>yes"
           [ItemCommand (CmdIf "a"); ItemText "yes"]);
    vm_compute; reflexivity.
Defined.

(** C10. Render needs a parse: [_parts] is null in a template as
    constructed, and stays null when [parse()] finds no file at the path of
    the template; [Template::render] on a null [_parts] dereferences it,
    which is neither a return nor an exception; and after a parse of a
    stream that returned, [_parts] is not null. *)
Theorem render_requires_parse :
  (forall templatePath, Template_parts (Template_new templatePath) = None)
  /\ (forall (FS : FileSystem) templatePath,
        File_exists templatePath = false ->
        Template_parse_file (Template_new templatePath)
        = Done (Template_new templatePath))
  /\ (forall (VM : ValueModel) includeRender tpl data out,
        Template_parts tpl = None ->
        Template_render includeRender tpl data out = NullDeref)
  /\ (forall (VM : ValueModel) (FS : FileSystem) includeRender templatePath
             data out,
        File_exists templatePath = false ->
        (tpl ← Template_parse_file (Template_new templatePath);
         Template_render includeRender tpl data out) = NullDeref)
  /\ (forall (FS : FileSystem) tpl source tpl',
        Template_parse tpl source = Done tpl' ->
        is_Some (Template_parts tpl'))
  /\ (forall (VM : ValueModel) includeRender tpl data out,
        Template_render includeRender tpl data out <> NullDeref ->
        is_Some (Template_parts tpl)).
Proof.
  split; [|split; [|split; [|split; [|split]]]].
  - reflexivity.
  - intros FS templatePath Hno. unfold Template_parse_file. simpl.
    rewrite Hno. reflexivity.
  - intros VM inc tpl data out Hnull. unfold Template_render.
    rewrite Hnull. reflexivity.
  - intros VM FS inc templatePath data out Hno.
    unfold Template_parse_file. simpl. rewrite Hno. reflexivity.
  - intros FS tpl source tpl'. unfold Template_parse.
    destruct (parse_loop _ _ _ _) as [b| | |]; simpl; try discriminate.
    intros [= <-]. unfold Template_parts. simpl. eexists. reflexivity.
  - intros VM inc tpl data out. unfold Template_render.
    destruct (Template_parts tpl); [eexists; reflexivity|congruence].
Qed.

Lemma render_requires_parse_witness :
  Template_parse_file (FS := NoFiles) (Template_new "missing.tpl")
  = Done (Template_new "missing.tpl")
  /\ Template_render (VM := Json) noInclude (Template_new "missing.tpl")
       items_data "" = NullDeref
  /\ (tpl ← Template_parse_file (FS := NoFiles) (Template_new "missing.tpl");
      Template_render (VM := Json) noInclude tpl items_data "") = NullDeref
  /\ is_Some (Template_parts
       {| _templatePath := "t";
          _tree := Some {| _currentPart := [StringPart "a"];
                           _partStack := [] |} |}).
Proof.
  destruct render_requires_parse
    as (_ & Hmissing & Hnull & Hboth & Hparsed & _).
  split; [apply Hmissing; reflexivity|].
  split; [apply Hnull; reflexivity|].
  split; [apply Hboth; reflexivity|].
  apply (Hparsed NoFiles (Template_new "t") "a"). vm_compute. reflexivity.
Defined.

(** * Further properties of the code *)

(** X1. [readText] returns the text before the first opener [<?] and leaves
    the stream right after the opener; on a text without an opener it
    returns the whole text and leaves the stream at its end. A [<] that is
    not followed by [?] is part of the text. *)
Theorem readText_reads_to_opener text rest :
  ~ has_opener text ->
  readText (istream_of (text +:+ "<?" +:+ rest))
  = (text, {| buf := rest; good := true |})
  /\ readText (istream_of text) = (text, at_eof).
Proof.
  intros Hfree. split.
  - apply readText_split, Hfree.
  - apply readText_all, Hfree.
Qed.

Lemma readText_reads_to_opener_witness :
  readText (istream_of "a<b<?c") = ("a<b", {| buf := "c"; good := true |})
  /\ readText (istream_of "a<b") = ("a<b", at_eof).
Proof.
  apply (readText_reads_to_opener "a<b" "c").
  apply opener_free_correct. reflexivity.
Defined.

(** X2. [readWhiteSpace] takes from the stream a run of white-space
    characters and nothing else, and what it leaves does not begin with
    white space. *)
Theorem readWhiteSpace_skips s :
  exists ws,
    pending s = ws +:+ pending (readWhiteSpace s).2
    /\ string_forall Ascii_isSpace ws = true
    /\ ends_or_begins no_space (pending (readWhiteSpace s).2) = true.
Proof.
  rewrite readWhiteSpace_pending.
  destruct (skipSpaces_split (pending s)) as (ws & Hsplit & Hws).
  exists ws. split; [exact Hsplit|]. split; [exact Hws|].
  apply skipSpaces_begins.
Qed.

(** X3. [readTemplateCommand] after optional white space: at the end of
    the input it returns the empty command; before the closer [?>] it
    returns the empty command and leaves the closer in the stream; at [=] it
    returns [echo] and takes the [=]; a word that does not begin with [=],
    holds no [?] and is followed by a white-space character is returned
    whole and the white-space character is taken with it. *)
Theorem readTemplateCommand_cases ws c w sp rest :
  string_forall Ascii_isSpace ws = true ->
  string_forall token_char (String c w) = true ->
  c <> "="%char ->
  Ascii_isSpace sp = true ->
  (readTemplateCommand (istream_of ws)).1 = ""
  /\ readTemplateCommand (istream_of (ws +:+ "?>" +:+ rest))
     = ("", {| buf := "?>" +:+ rest; good := true |})
  /\ readTemplateCommand (istream_of (ws +:+ "=" +:+ rest))
     = ("echo", {| buf := rest; good := true |})
  /\ readTemplateCommand (istream_of (ws +:+ String c w +:+ String sp rest))
     = (String c w, {| buf := rest; good := true |}).
Proof.
  intros Hws Hw Hc Hsp.
  assert (Hskip : forall tail,
            skipSpaces (pending (istream_of (ws +:+ tail))) = skipSpaces tail).
  { intros tail. unfold pending. cbn [istream_of good buf].
    apply skipSpaces_spaces, Hws. }
  split; [|split; [|split]].
  - apply readTemplateCommand_none. left. unfold pending.
    cbn [istream_of good buf]. apply skipSpaces_all, Hws.
  - apply readTemplateCommand_closer. rewrite Hskip. reflexivity.
  - apply readTemplateCommand_echo. rewrite Hskip. reflexivity.
  - apply (readTemplateCommand_word_after _ c w sp rest Hw Hc Hsp).
    rewrite Hskip, append_String. apply skipSpaces_stay.
    cbn [string_forall] in Hw. apply andb_prop in Hw. destruct Hw as [Hc0 _].
    apply token_char_inv in Hc0. apply Hc0.
Qed.

Lemma readTemplateCommand_cases_witness :
  (readTemplateCommand (istream_of "  ")).1 = ""
  /\ readTemplateCommand (istream_of "  ?>x")
     = ("", {| buf := "?>x"; good := true |})
  /\ readTemplateCommand (istream_of "  =x")
     = ("echo", {| buf := "x"; good := true |})
  /\ readTemplateCommand (istream_of "  if x")
     = ("if", {| buf := "x"; good := true |}).
Proof.
  apply (readTemplateCommand_cases "  " "i" "f" " " "x").
  - reflexivity.
  - reflexivity.
  - discriminate.
  - reflexivity.
Defined.

(** X4. [readWord] splits what the stream holds into the word it returns,
    which has no white space, and what it leaves in the stream, which is
    empty or begins with white space. *)
Theorem readWord_reads_word s :
  pending s = (readWord s).1 +:+ pending (readWord s).2
  /\ string_forall no_space (readWord s).1 = true
  /\ ends_or_begins Ascii_isSpace (pending (readWord s).2) = true.
Proof.
  unfold readWord.
  destruct (readWord_loop_word (S (String.length (buf s))) "" s)
    as (w & Hw & Hp & Hall & Hend).
  { pose proof (remaining_buf s). lia. }
  rewrite Hw. change ("" +:+ w) with w. auto.
Qed.

(** X5. [readQuery] returns a prefix of what the stream holds that has no
    white space and in which no closer [?>] begins; it stops at the end of
    the input, before a closer, which it leaves in the stream, or at a
    white-space character, which it takes from the stream. *)
Theorem readQuery_reads_query s :
  exists tail,
    pending s = (readQuery s).1 +:+ tail
    /\ string_forall no_space (readQuery s).1 = true
    /\ no_closer_in (readQuery s).1 tail = true
    /\ query_end tail (pending (readQuery s).2).
Proof.
  unfold readQuery.
  destruct (readQuery_loop_word (S (String.length (buf s))) "" s)
    as (w & tail & Hw & Hp & Hall & Hno & Hend).
  { pose proof (remaining_buf s). lia. }
  rewrite Hw. change ("" +:+ w) with w. exists tail. auto.
Qed.

(** X6. [readString] returns the text between an opening double quote and
    the next double quote and leaves the stream after the closing quote;
    when no closing quote follows it returns the text up to the end of the
    input; when the stream does not begin with a double quote it returns
    the empty string and the first character is lost. *)
Theorem readString_reads_quoted f c rest :
  string_forall no_quote f = true ->
  c <> quote ->
  readString (istream_of (String quote f +:+ String quote rest))
  = (f, {| buf := rest; good := true |})
  /\ readString (istream_of (String quote f)) = (f, at_eof)
  /\ readString (istream_of (String c rest))
     = ("", {| buf := rest; good := true |}).
Proof.
  intros Hf Hc. split; [|split].
  - apply (readString_quoted f rest Hf).
  - apply readString_unclosed, Hf.
  - apply readString_unquoted, Hc.
Qed.

Lemma readString_reads_quoted_witness :
  readString (istream_of (String quote "a b" +:+ String quote " ?>"))
  = ("a b", {| buf := " ?>"; good := true |})
  /\ readString (istream_of (String quote "a b")) = ("a b", at_eof)
  /\ readString (istream_of "a ?>") = ("", {| buf := " ?>"; good := true |}).
Proof.
  apply (readString_reads_quoted "a b" "a" " ?>").
  - reflexivity.
  - discriminate.
Defined.

(** X7. After the command words [echo], [elsif], [elif], [if] and
    [ifexist] the parser throws the missing-query exception, whose text
    names the command word as written, exactly when the rest of the input
    after white space is empty or begins with the closer [?>]; otherwise
    the arguments are read without exception. *)
Theorem missing_query command s :
  command ∈ query_keywords ->
  let result := (readCommandArguments command (readWhiteSpace s).2).1 in
  (result = Thrown ("Missing query in <? " +:+ command +:+ " ?>")
   <-> skipSpaces (pending s) = ""
       \/ begins_closer (skipSpaces (pending s)) = true)
  /\ (result <> Thrown ("Missing query in <? " +:+ command +:+ " ?>") ->
      exists c, result = Done c).
Proof.
  intros Hin result. subst result.
  pose proof (readWhiteSpace_pending s) as Hp.
  pose proof (skipSpaces_begins (pending s)) as Hb.
  destruct (readWhiteSpace s) as [[] s1]. simpl in Hp. cbn [snd].
  rewrite <- Hp in *. clear Hp.
  pose proof (readQuery_empty_iff s1) as Hq.
  assert (Hcases : command = "echo" \/ command = "elsif" \/ command = "elif"
                   \/ command = "if" \/ command = "ifexist").
  { unfold query_keywords in Hin. rewrite !elem_of_cons in Hin.
    rewrite elem_of_nil in Hin. tauto. }
  assert (Hempty : (readQuery s1).1 = ""
                   <-> pending s1 = "" \/ begins_closer (pending s1) = true).
  { rewrite Hq. split.
    - intros [H|H]; [auto|]. left. apply begins_both; assumption.
    - intros [H|H]; [|auto]. right. rewrite H. reflexivity. }
  clear Hq Hb.
  destruct Hcases as [->|[->|[->|[->| ->]]]];
    unfold readCommandArguments; simpl; scan_step;
    destruct (readQuery s1) as [q s2]; simpl in *;
    (destruct q as [|c q]; simpl;
     [ split; [split; [intros _; apply Hempty; reflexivity | reflexivity]
              | intros H; exfalso; apply H; reflexivity]
     | split; [split; [discriminate
                      | intros H; apply Hempty in H; discriminate]
              | intros _; eexists; reflexivity] ]).
Qed.

Lemma missing_query_witness :
  (readCommandArguments "if" (readWhiteSpace (istream_of " ?>")).2).1
  = Thrown "Missing query in <? if ?>".
Proof.
  apply (proj2 (proj1 (missing_query "if" (istream_of " ?>")
                         ltac:(unfold query_keywords; rewrite !elem_of_cons; tauto)))).
  right. reflexivity.
Defined.

(** X8. After the command word [for] the parser throws the
    missing-variable exception exactly when nothing but white space is left
    of the input, so not when the closer [?>] follows directly. *)
Theorem missing_loop_variable s :
  (readCommandArguments "for" (readWhiteSpace s).2).1
  = Thrown "Missing variable in <? for ?> command"
  <-> skipSpaces (pending s) = "".
Proof.
  pose proof (readWhiteSpace_pending s) as Hp.
  pose proof (skipSpaces_begins (pending s)) as Hb.
  destruct (readWhiteSpace s) as [[] s1]. simpl in Hp. cbn [snd].
  rewrite <- Hp in *. clear Hp.
  pose proof (readWord_empty_iff s1) as Hw.
  unfold readCommandArguments. simpl. scan_step.
  destruct (readWord s1) as [word s2]. simpl in *.
  destruct word as [|c word]; simpl.
  - split; [|reflexivity]. intros _. apply begins_both; [assumption|].
    apply Hw. reflexivity.
  - destruct (readWhiteSpace s2) as [[] s3]. destruct (readQuery s3) as [q s4].
    simpl. split.
    + destruct q; discriminate.
    + intros H. rewrite H in Hw. destruct Hw as [_ Hw]. specialize (Hw eq_refl).
      discriminate.
Qed.

(** X9. After the command word [for] the parser throws the
    missing-query exception exactly when it read a loop variable and what is
    left after the variable and white space is empty or begins with the
    closer [?>]. *)
Theorem missing_loop_query s :
  let afterWord := (readWhiteSpace (readWord (readWhiteSpace s).2).2).2 in
  (readCommandArguments "for" (readWhiteSpace s).2).1
  = Thrown "Missing query in <? for ?> command"
  <-> (readWord (readWhiteSpace s).2).1 <> ""
      /\ (pending afterWord = "" \/ begins_closer (pending afterWord) = true).
Proof.
  destruct (readWhiteSpace s) as [[] s1]. cbn [snd].
  unfold readCommandArguments. decide_keyword. unfold mbind, Scan_bind.
  destruct (readWord s1) as [word s2]. cbn [fst snd].
  destruct word as [|c word]; cbn [string_empty].
  { unfold mret, Scan_ret. cbn [fst]. split; [discriminate|].
    intros [H _]. contradiction. }
  pose proof (readWhiteSpace_pending s2) as Hp.
  pose proof (skipSpaces_begins (pending s2)) as Hb.
  destruct (readWhiteSpace s2) as [[] s3]. cbn [snd] in *.
  rewrite <- Hp in Hb. clear Hp.
  pose proof (readQuery_empty_iff s3) as Hq.
  destruct (readQuery s3) as [q s4]. cbn [fst] in *.
  unfold mret, Scan_ret. cbn [fst].
  destruct q as [|c' q]; cbn [string_empty].
  - split; [|reflexivity]. intros _. split; [discriminate|].
    destruct (proj1 Hq eq_refl) as [H|H]; [right; exact H|].
    left. apply begins_both; assumption.
  - split; [discriminate|]. intros [_ H].
    assert (Hempty : String c' q = "").
    { apply Hq. destruct H as [H|H]; [right; rewrite H; reflexivity|left; exact H]. }
    discriminate.
Qed.

(** X10. A first directive whose command word is none of the ten the
    parser knows makes the parse throw [Unknown command] followed by the
    word. *)
Theorem unknown_command (FS : FileSystem) tpl text c w sp rest :
  ~ has_opener text ->
  string_forall token_char (String c w) = true ->
  c <> "="%char ->
  Ascii_isSpace sp = true ->
  String c w ∉ keywords ->
  Template_parse tpl (text +:+ "<? " +:+ String c w +:+ String sp rest)
  = Thrown ("Unknown command " +:+ String c w).
Proof.
  intros Hfree Hw Hc Hsp Hno. unfold Template_parse.
  destruct (length_source text ("? " +:+ String c w +:+ String sp rest))
    as (n & Hn & _).
  change (text +:+ "<? " +:+ String c w +:+ String sp rest)
    with (text +:+ String "<" ("? " +:+ String c w +:+ String sp rest)).
  rewrite Hn. cbn [parse_loop istream_of good].
  change (text +:+ String "<" ("? " +:+ String c w +:+ String sp rest))
    with (text +:+ "<?" +:+ String " " (String c w +:+ String sp rest)).
  rewrite (readText_split text _ Hfree).
  rewrite (readTemplateCommand_word c w sp rest Hw Hc Hsp).
  cbn [bad string_empty].
  destruct (readWhiteSpace {| buf := rest; good := true |}) as [[] s3].
  rewrite (readCommandArguments_unknown _ _ Hno). reflexivity.
Qed.

Lemma unknown_command_witness :
  Template_parse (FS := NoFiles) (Template_new "t") "<? while x ?>"
  = Thrown "Unknown command while".
Proof.
  apply (unknown_command NoFiles (Template_new "t") "" "w" "hile" " " "x ?>").
  - apply opener_free_correct. reflexivity.
  - reflexivity.
  - discriminate.
  - reflexivity.
  - unfold keywords. rewrite !elem_of_cons, elem_of_nil. intuition discriminate.
Defined.

(** X11. An [include] directive whose file name does not begin with a
    double quote makes the parse throw the missing-filename exception. *)
Theorem include_needs_quotes (FS : FileSystem) tpl text c rest :
  ~ has_opener text ->
  Ascii_isSpace c = false ->
  c <> quote ->
  Template_parse tpl (text +:+ "<? include " +:+ String c rest)
  = Thrown "Missing filename in <? include ?>".
Proof.
  intros Hfree Hc Hquote. unfold Template_parse.
  destruct (length_source text ("? include " +:+ String c rest)) as (n & Hn & _).
  change (text +:+ "<? include " +:+ String c rest)
    with (text +:+ String "<" ("? include " +:+ String c rest)).
  rewrite Hn. cbn [parse_loop istream_of good].
  change (text +:+ String "<" ("? include " +:+ String c rest))
    with (text +:+ "<?" +:+ String " " ("include" +:+ String " " (String c rest))).
  rewrite (readText_split text _ Hfree).
  rewrite (readTemplateCommand_word "i" "nclude" " " (String c rest)
             eq_refl ltac:(discriminate) eq_refl).
  cbn [bad string_empty]. rewrite (readWhiteSpace_stay c rest Hc).
  assert (Hargs : readCommandArguments "include"
                    {| buf := String c rest; good := true |}
                  = (Thrown "Missing filename in <? include ?>",
                     {| buf := rest; good := true |})).
  { unfold readCommandArguments. decide_keyword. cbn [orb].
    unfold mbind, Scan_bind.
    rewrite (readWhiteSpace_stay c rest Hc), (readString_unquoted c rest Hquote).
    reflexivity. }
  rewrite Hargs. reflexivity.
Qed.

Lemma include_needs_quotes_witness :
  Template_parse (FS := NoFiles) (Template_new "t") "<? include row.tpl ?>"
  = Thrown "Missing filename in <? include ?>".
Proof.
  apply (include_needs_quotes NoFiles (Template_new "t") "" "r" "ow.tpl ?>").
  - apply opener_free_correct. reflexivity.
  - reflexivity.
  - discriminate.
Defined.

(** X12. A directive without a command word, [<? ?>], ends the parse
    without an exception: the template is the one of the text before it, and
    everything after it is dropped. *)
Theorem empty_directive_ends_parse (FS : FileSystem) tpl text ws rest :
  ~ has_opener text ->
  string_forall Ascii_isSpace ws = true ->
  Template_parse tpl (text +:+ "<?" +:+ ws +:+ "?>" +:+ rest)
  = Template_parse tpl text.
Proof.
  intros Hfree Hws. unfold Template_parse. f_equal.
  destruct (length_source text ("?" +:+ ws +:+ "?>" +:+ rest)) as (n & Hn & _).
  change (text +:+ "<?" +:+ ws +:+ "?>" +:+ rest)
    with (text +:+ String "<" ("?" +:+ ws +:+ "?>" +:+ rest)) at 1.
  rewrite Hn.
  rewrite (parse_loop_stop _ _ _ _ text {| buf := ws +:+ "?>" +:+ rest; good := true |}).
  - rewrite parse_loop_literal by exact Hfree. reflexivity.
  - reflexivity.
  - apply (readText_split text (ws +:+ "?>" +:+ rest) Hfree).
  - apply readTemplateCommand_none. right. unfold pending. simpl.
    rewrite skipSpaces_spaces by assumption. reflexivity.
Qed.

Lemma empty_directive_ends_parse_witness :
  Template_parse (FS := NoFiles) (Template_new "t") "a<? ?>b"
  = Template_parse (FS := NoFiles) (Template_new "t") "a".
Proof.
  apply (empty_directive_ends_parse NoFiles (Template_new "t") "a" " " "b").
  - apply opener_free_correct. reflexivity.
  - reflexivity.
Defined.

(** X13. The shorthand [<?=] is read as the directive [<? echo ], for
    every continuation of the source. *)
Theorem echo_shorthand (FS : FileSystem) tpl text rest :
  ~ has_opener text ->
  Template_parse tpl (text +:+ "<?=" +:+ rest)
  = Template_parse tpl (text +:+ "<? echo " +:+ rest).
Proof.
  intros Hfree. unfold Template_parse. f_equal.
  destruct (length_source text ("?=" +:+ rest)) as (n & Hn & Hle).
  destruct (length_source text ("? echo " +:+ rest)) as (n' & Hn' & Hle').
  rewrite length_append in Hle, Hle'.
  change (text +:+ "<?=" +:+ rest) with (text +:+ String "<" ("?=" +:+ rest)).
  change (text +:+ "<? echo " +:+ rest)
    with (text +:+ String "<" ("? echo " +:+ rest)).
  rewrite Hn, Hn'. 
  eapply parse_loop_from_command with (text := text) (command := "echo")
    (s2 := {| buf := rest; good := true |}); try reflexivity.
  - apply (readText_split text ("=" +:+ rest) Hfree).
  - apply (readText_split text (" echo " +:+ rest) Hfree).
  - vm_compute. reflexivity.
  - vm_compute. reflexivity.
  - unfold remaining, pending. simpl in *. lia.
  - unfold remaining, pending. simpl in *. lia.
Qed.

Lemma echo_shorthand_witness :
  Template_parse (FS := NoFiles) (Template_new "t") "a<?= x ?>"
  = Template_parse (FS := NoFiles) (Template_new "t") "a<? echo  x ?>".
Proof.
  apply (echo_shorthand NoFiles (Template_new "t") "a" " x ?>").
  apply opener_free_correct. reflexivity.
Defined.

(** X14. In every state of the tree under construction, a directive
    written [elif] with a query is parsed as the same directive written
    [elsif]. *)
Theorem elif_alias (FS : FileSystem) templatePath b text q sp rest fuel :
  ~ has_opener text ->
  query_token q = true ->
  Ascii_isSpace sp = true ->
  String.length (text +:+ "<? elsif " +:+ q +:+ String sp rest) < fuel ->
  parse_loop fuel templatePath b
    (istream_of (text +:+ "<? elif " +:+ q +:+ String sp rest))
  = parse_loop fuel templatePath b
      (istream_of (text +:+ "<? elsif " +:+ q +:+ String sp rest)).
Proof.
  intros Hfree Hq Hsp Hfuel.
  destruct fuel as [|fuel]; [lia|].
  rewrite !length_append in Hfuel. cbn [String.length] in Hfuel.
  destruct (query_token_inv q Hq) as (c0 & q' & Hq0 & Hc0).
  assert (Hstay : readWhiteSpace {| buf := q +:+ String sp rest; good := true |}
                  = (tt, {| buf := q +:+ String sp rest; good := true |})).
  { rewrite Hq0, append_String. apply readWhiteSpace_stay, Hc0. }
  assert (Hne : string_empty q = false) by (rewrite Hq0; reflexivity).
  eapply (parse_loop_from_arguments fuel fuel _ _ _ _ text _ _ "elif" "elsif"
            _ _ _ _ (Done (CmdElsif q)) {| buf := rest; good := true |}).
  - reflexivity.
  - reflexivity.
  - apply (readText_split text (" elif " +:+ q +:+ String sp rest) Hfree).
  - apply (readText_split text (" elsif " +:+ q +:+ String sp rest) Hfree).
  - exact (readTemplateCommand_word "e" "lif" " " _ eq_refl ltac:(discriminate) eq_refl).
  - exact (readTemplateCommand_word "e" "lsif" " " _ eq_refl ltac:(discriminate) eq_refl).
  - reflexivity.
  - reflexivity.
  - exact Hstay.
  - exact Hstay.
  - unfold readCommandArguments. decide_keyword. cbn [orb].
    unfold mbind, Scan_bind. rewrite (readQuery_token q sp rest Hq Hsp).
    unfold mret, Scan_ret. rewrite Hne. reflexivity.
  - exact (readCommandArguments_query (CmdElsif q) q _ _
             (or_intror (or_introl eq_refl))
             (readQuery_token q sp rest Hq Hsp) Hne).
  - apply closeDirective_not_echo; discriminate.
  - unfold remaining, pending. cbn [good buf]. lia.
  - unfold remaining, pending. cbn [good buf]. lia.
Qed.

Lemma elif_alias_witness :
  parse_loop (FS := NoFiles) 30 "t"
    {| _currentPart := [StringPart "A"];
       _partStack := [{| enclosing := [];
                         block := LogicBlock [LogicValueQuery "a"] [] |}] |}
    (istream_of "<? elif b ?>B<? endif ?>")
  = parse_loop (FS := NoFiles) 30 "t"
      {| _currentPart := [StringPart "A"];
         _partStack := [{| enclosing := [];
                           block := LogicBlock [LogicValueQuery "a"] [] |}] |}
      (istream_of "<? elsif b ?>B<? endif ?>").
Proof.
  apply (elif_alias NoFiles "t" _ "" "b" " " "?>B<? endif ?>" 30).
  - apply opener_free_correct. reflexivity.
  - reflexivity.
  - reflexivity.
  - simpl. lia.
Defined.

(** X15. The parse loop ends on every source: every bound on the number
    of rounds above the length of the source gives the result of the bound
    [Template_parse] uses, and that result is a return or an exception,
    never the exhaustion of the bound. *)
Theorem parse_ends (FS : FileSystem) templatePath b source fuel :
  String.length source < fuel ->
  parse_loop fuel templatePath b (istream_of source)
  = parse_loop (S (String.length source)) templatePath b (istream_of source)
  /\ ((exists b', parse_loop fuel templatePath b (istream_of source) = Done b')
      \/ (exists reason,
            parse_loop fuel templatePath b (istream_of source) = Thrown reason)).
Proof.
  intros Hfuel.
  assert (Hremaining : remaining (istream_of source) = String.length source)
    by reflexivity.
  split.
  - apply parse_loop_fuel; rewrite Hremaining; lia.
  - apply parse_loop_returns. rewrite Hremaining. exact Hfuel.
Qed.

Lemma parse_ends_witness :
  parse_loop (FS := NoFiles) 100 "t" {| _currentPart := []; _partStack := [] |}
    (istream_of "a<? if x ?>b")
  = parse_loop (FS := NoFiles) 13 "t" {| _currentPart := []; _partStack := [] |}
      (istream_of "a<? if x ?>b").
Proof.
  apply (parse_ends NoFiles "t" {| _currentPart := []; _partStack := [] |}
           "a<? if x ?>b" 100).
  simpl. lia.
Defined.



(** X17. In the tree of every template that [Template_parse] returns
    each [LogicPart] has exactly one body for each guard, so the size test
    of [LogicPart::render] never fails on it, and no text part, query or
    loop variable is empty. *)
Theorem parsed_tree_well_built (FS : FileSystem) tpl source tpl' :
  Template_parse tpl source = Done tpl' ->
  exists root, Template_parts tpl' = Some root /\ well_built root = true.
Proof.
  unfold Template_parse. intros Hparse.
  destruct (parse_loop _ _ _ _) as [b| | |] eqn:Hloop; try discriminate.
  injection Hparse as <-.
  apply parse_loop_ok in Hloop; [|reflexivity].
  unfold Builder_ok in Hloop. apply andb_prop in Hloop.
  destruct Hloop as [Hcurrent Hstack].
  eexists. split; [reflexivity|].
  cbn [well_built]. apply Builder_root_ok; assumption.
Qed.

Lemma parsed_tree_well_built_witness :
  exists root,
    Template_parts
      {| _templatePath := "t";
         _tree := Some
           {| _currentPart := [StringPart "b"];
              _partStack := [{| enclosing := [StringPart "a"];
                                block := LogicBlock [LogicValueQuery "x"] [] |}]
           |} |} = Some root
    /\ well_built root = true.
Proof.
  apply (parsed_tree_well_built NoFiles (Template_new "t") "a<? if x ?>b").
  vm_compute. reflexivity.
Defined.

(** X18. A source made of a literal text, one echo directive with a query
    token and a literal text parses to the three parts in order, and
    rendering appends the first text, the string of the value the query
    finds (nothing when it is empty) and the second text, leaving the data
    as it was. *)
Theorem echo_directive (VM : ValueModel) (FS : FileSystem) includeRender
    templatePath before q after data out :
  ~ has_opener before ->
  ~ has_opener after ->
  query_token q = true ->
  exists tpl,
    Template_parse (Template_new templatePath)
      (before +:+ "<?= " +:+ q +:+ " ?>" +:+ after) = Done tpl
    /\ Template_parts tpl
       = Some (MultiPart (text_parts before ++ EchoPart q :: text_parts after))
    /\ Template_render includeRender tpl data out
       = Done (data,
               out +:+ before
               +:+ (if Var_isEmpty (Query_find data q) then ""
                    else convert_string (Query_find data q))
               +:+ after).
Proof.
  intros Hbefore Hafter Hq.
  assert (Hparse :
    Template_parse (Template_new templatePath)
      (before +:+ "<?= " +:+ q +:+ " ?>" +:+ after)
    = Done {| _templatePath := templatePath;
              _tree := Some
                {| _currentPart :=
                     (text_parts before ++ [EchoPart q]) ++ text_parts after;
                   _partStack := [] |} |}).
  { unfold Template_parse. cbn [_templatePath Template_new].
    destruct (length_source before ("?= " +:+ q +:+ " ?>" +:+ after))
      as (n & Hn & _).
    change (before +:+ "<?= " +:+ q +:+ " ?>" +:+ after)
      with (before +:+ String "<" ("?= " +:+ q +:+ " ?>" +:+ after)).
    rewrite Hn.
    change (before +:+ String "<" ("?= " +:+ q +:+ " ?>" +:+ after))
      with (before +:+ "<?" +:+ ("= " +:+ q +:+ " ?>" +:+ after)).
    destruct (closeDirective_echo {| buf := "?>" +:+ after; good := true |} after)
      as (s' & Hclose & Hpending); [reflexivity|].
    assert (Hnonempty : exists c q', q = String c q' /\ Ascii_isSpace c = false).
    { unfold query_token in Hq. apply andb_prop in Hq. destruct Hq as [Hne Hall].
      destruct q as [|c q']; [discriminate|]. exists c, q'. split; [reflexivity|].
      cbn [string_forall] in Hall. apply andb_prop in Hall.
      destruct Hall as [Hc _]. apply token_char_inv in Hc. apply Hc. }
    erewrite (parse_loop_round (S n) templatePath _ _ before _ "echo"
                {| buf := " " +:+ q +:+ " ?>" +:+ after; good := true |}
                {| buf := q +:+ " ?>" +:+ after; good := true |}
                (CmdEcho q) {| buf := "?>" +:+ after; good := true |});
      [ | reflexivity | apply (readText_split before _ Hbefore)
        | vm_compute; reflexivity | reflexivity | | | reflexivity | exact Hclose ].
    - rewrite parse_loop_literal.
      + rewrite Hpending. reflexivity.
      + rewrite Hpending. exact Hafter.
    - destruct Hnonempty as (c & q' & -> & Hc).
      unfold readWhiteSpace. simpl. scan_step. rewrite Hc. reflexivity.
    - assert (HQ : readQuery {| buf := q +:+ " ?>" +:+ after; good := true |}
                   = (q, {| buf := "?>" +:+ after; good := true |}))
        by exact (readQuery_token q " " ("?>" +:+ after) Hq eq_refl).
      unfold readCommandArguments.
      destruct (decide ("echo" = "echo")); [|congruence].
      unfold mbind, Scan_bind. rewrite HQ.
      destruct Hnonempty as (c & q' & -> & Hc). reflexivity. }
  eexists. split; [exact Hparse|]. split.
  - unfold Template_parts. simpl. rewrite <- app_assoc. reflexivity.
  - unfold Template_render, Template_parts. simpl.
    rewrite !map_app, !MultiPart_render_app.
    rewrite render_text_parts. simpl. unfold EchoPart_render.
    destruct (Var_isEmpty (Query_find data q)); simpl.
    + rewrite render_text_parts, !append_assoc. reflexivity.
    + rewrite render_text_parts, !append_assoc. reflexivity.
Qed.

Lemma echo_directive_witness :
  exists tpl,
    Template_parse (FS := NoFiles) (Template_new "t") "a<?= x ?>b" = Done tpl
    /\ Template_parts tpl
       = Some (MultiPart [StringPart "a"; EchoPart "x"; StringPart "b"])
    /\ Template_render (VM := Json) noInclude tpl shadowed_data ""
       = Done (shadowed_data, "aAb").
Proof.
  apply (echo_directive Json NoFiles noInclude "t" "a" "x" "b" shadowed_data "").
  - apply opener_free_correct. reflexivity.
  - apply opener_free_correct. reflexivity.
  - reflexivity.
Defined.

(** X19. A source [<? if q ?>yes<? else ?>no<? endif ?>] parses, and
    rendering appends the first text when the guard holds on the data and
    the second text otherwise, leaving the data as it was. *)
Theorem if_else_block (VM : ValueModel) (FS : FileSystem) includeRender
    templatePath q yes no data out :
  printable false
    [ItemCommand (CmdIf q); ItemText yes; ItemCommand CmdElse; ItemText no;
     ItemCommand CmdEndif] = true ->
  exists tpl,
    Template_parse (Template_new templatePath)
      ("<? if " +:+ q +:+ " ?>" +:+ yes +:+ "<? else ?>" +:+ no +:+ "<? endif ?>")
    = Done tpl
    /\ Template_render includeRender tpl data out
       = Done (data, out +:+ (if LogicQuery_apply (LogicValueQuery q) data
                              then yes else no)).
Proof.
  intros Hok.
  exists {| _templatePath := templatePath;
            _tree := Some
              {| _currentPart :=
                   [LogicPart [LogicValueQuery q; LogicElseQuery]
                      [MultiPart [StringPart yes]; MultiPart [StringPart no]]];
                 _partStack := [] |} |}.
  split.
  - pose proof (Template_parse_unparse (Template_new templatePath) _ Hok) as Hparse.
    cbn [unparse unparse_item] in Hparse. unfold unparse_command in Hparse.
    cbn [keyword_of arguments_of] in Hparse. rewrite !append_assoc in Hparse.
    exact Hparse.
  - unfold Template_render, Template_parts. cbn [_tree fmap option_fmap option_map
      _currentPart _partStack Builder_root].
    apply render_if_else.
Qed.

Lemma if_else_block_witness :
  exists tpl,
    Template_parse (FS := NoFiles) (Template_new "t")
      "<? if a ?>yes<? else ?>no<? endif ?>" = Done tpl
    /\ Template_render (VM := Json) noInclude tpl ab_data "" = Done (ab_data, "no").
Proof.
  exact (if_else_block Json NoFiles noInclude "t" "a" "yes" "no" ab_data ""
           eq_refl).
Defined.

(** X20. A source [<? for x q ?>body<? endfor ?>] with a literal body
    parses, and rendering it on an object in which the query finds an array
    appends the body once for each element and leaves the object without
    the field of the loop variable. *)
Theorem for_block (VM : ValueModel) (FS : FileSystem) includeRender
    templatePath x q body fields elems out :
  printable false
    [ItemCommand (CmdFor x q); ItemText body; ItemCommand CmdEndfor] = true ->
  Query_find (VObject fields) q = VArray elems ->
  exists tpl,
    Template_parse (Template_new templatePath)
      ("<? for " +:+ x +:+ " " +:+ q +:+ " ?>" +:+ body +:+ "<? endfor ?>")
    = Done tpl
    /\ Template_render includeRender tpl (VObject fields) out
       = Done (VObject (delete x fields),
               out +:+ repeat_text (length elems) body).
Proof.
  intros Hok Hfind.
  exists {| _templatePath := templatePath;
            _tree := Some
              {| _currentPart := [LoopPart x q [StringPart body]];
                 _partStack := [] |} |}.
  split.
  - pose proof (Template_parse_unparse (Template_new templatePath) _ Hok) as Hparse.
    cbn [unparse unparse_item] in Hparse. unfold unparse_command in Hparse.
    cbn [keyword_of arguments_of] in Hparse. rewrite !append_assoc in Hparse.
    exact Hparse.
  - unfold Template_render, Template_parts. cbn [_tree fmap option_fmap option_map
      _currentPart _partStack Builder_root].
    apply render_for, Hfind.
Qed.

Lemma for_block_witness :
  exists tpl,
    Template_parse (FS := NoFiles) (Template_new "t")
      "<? for x items ?>*<? endfor ?>" = Done tpl
    /\ Template_render (VM := Json) noInclude tpl shadowed_data ""
       = Done (Object_remove "x" shadowed_data, "**").
Proof.
  apply (for_block Json NoFiles noInclude "t" "x" "items" "*"
           (<["x" := VString "A"]> (<["items" := VArray [VInt 1; VInt 2]]> ∅))
           [VInt 1; VInt 2] "").
  - reflexivity.
  - vm_compute. reflexivity.
Defined.

(** X21. An include directive with a quoted, non-empty file name parses to
    one [IncludePart] whose path is the one its constructor computes from the
    parent of the template path, and rendering the template is rendering
    that part. *)
Theorem include_directive (VM : ValueModel) (FS : FileSystem) includeRender
    templatePath filename data out :
  name_token filename = true ->
  exists tpl,
    Template_parse (Template_new templatePath)
      ("<? include " +:+ quoted filename +:+ " ?>") = Done tpl
    /\ Template_parts tpl
       = Some (MultiPart
                 [IncludePart_new (Path_makeParent templatePath) filename])
    /\ Template_render includeRender tpl data out
       = ('(data', out') ← render includeRender
                              (IncludePart_new (Path_makeParent templatePath)
                                 filename) data out;
          Done (data', out')).
Proof.
  intros Hname.
  pose proof (Template_parse_unparse (Template_new templatePath)
                [ItemCommand (CmdInclude filename)]) as Hparse.
  cbn [printable command_ok andb] in Hparse. rewrite Hname in Hparse.
  specialize (Hparse eq_refl).
  cbn [unparse unparse_item] in Hparse. unfold unparse_command in Hparse.
  cbn [keyword_of arguments_of] in Hparse. rewrite !append_assoc in Hparse.
  eexists. split; [exact Hparse|]. split; reflexivity.
Qed.

Lemma include_directive_witness :
  exists tpl,
    Template_parse (FS := RowFiles) (Template_new "main.tpl")
      ("<? include " +:+ quoted "row.tpl" +:+ " ?>") = Done tpl
    /\ Template_parts tpl = Some (MultiPart [IncludePart "row.tpl"])
    /\ Template_render (VM := Json) noInclude tpl VEmpty ""
       = NullDeref.
Proof.
  apply (include_directive Json RowFiles noInclude "main.tpl" "row.tpl" VEmpty "").
  reflexivity.
Defined.

(** X22. Rendering a [MultiPart] over two runs of parts is rendering
    the first run and then the second on the data and the output the first
    left; an exception in the first run ends the render. *)
Theorem MultiPart_render_sequence (VM : ValueModel) includeRender
    (parts1 parts2 : list Part) data out :
  render includeRender (MultiPart (parts1 ++ parts2)) data out
  = ('(data', out') ← render includeRender (MultiPart parts1) data out;
     render includeRender (MultiPart parts2) data' out').
Proof.
  cbn [render]. rewrite map_app. apply MultiPart_render_app.
Qed.

(** X23. In [LogicPart::render] no guard after an [else] guard is
    ever evaluated to a body: the branches after an [else] can be dropped
    without changing any render. *)
Theorem else_hides_later_branches (VM : ValueModel) before after
    (parts : list Renderer) data out :
  LogicPart_render (before ++ LogicElseQuery :: after) parts data out
  = LogicPart_render (before ++ [LogicElseQuery]) parts data out.
Proof.
  unfold LogicPart_render. generalize 0 as count.
  induction before as [|q before IH]; intros count; simpl.
  - destruct (bool_decide (count < length parts)) eqn:Hcount; [reflexivity|].
    simpl. apply bool_decide_eq_false in Hcount.
    clear -Hcount. revert count Hcount.
    induction after as [|q after IH]; intros count Hcount; [reflexivity|].
    simpl. rewrite bool_decide_eq_false_2 by lia. rewrite andb_false_r.
    apply IH. lia.
  - destruct (LogicQuery_apply q data && bool_decide (count < length parts));
      [reflexivity|]. apply IH.
Qed.

(** X24. Rendering only appends to the output: what a render returns
    on an output [out] is what it returns on the empty output with [out]
    put in front of the text written, for every template, data, cache and
    include depth. *)
Theorem render_only_appends (VM : ValueModel) (FS : FileSystem)
    cache depth tpl data out :
  Template_render (IncludePart_render cache depth) tpl data out
  = (fun '(data', written) => (data', out +:+ written))
      <$> Template_render (IncludePart_render cache depth) tpl data "".
Proof.
  apply Template_render_appends. intros path.
  apply IncludePart_render_appends.
Qed.

(** X25. Rendering never adds a field to the data and never changes
    the value of a field it keeps: the object after a render holds a part of
    the fields it held before, and data that is not an object is returned
    as it was. *)
Theorem render_only_removes (VM : ValueModel) (FS : FileSystem)
    cache depth tpl data out data' out' :
  Template_render (IncludePart_render cache depth) tpl data out
  = Done (data', out') ->
  within data' data.
Proof.
  intros Hrun.
  exact (Template_render_shrinks _ tpl (IncludePart_render_shrinks cache depth)
           _ _ _ _ Hrun).
Qed.

Lemma render_only_removes_witness :
  within (Object_remove "x" shadowed_data) shadowed_data.
Proof.
  apply (render_only_removes Json NoFiles None 1
           {| _templatePath := "t";
              _tree := Some {| _currentPart := [items_loop]; _partStack := [] |} |}
           shadowed_data "" (Object_remove "x" shadowed_data) "1,2,").
  vm_compute. reflexivity.
Defined.

(** X26. Without a template cache, rendering an include of a path at
    which no file exists dereferences the null [_parts] of a template that
    was never parsed. *)
Theorem include_missing_file (VM : ValueModel) (FS : FileSystem)
    depth path data out :
  File_exists path = false ->
  IncludePart_render None (S depth) path data out = NullDeref.
Proof.
  intros Hmissing. cbn [IncludePart_render]. unfold Template_parse_file.
  cbn [_templatePath Template_new]. rewrite Hmissing. reflexivity.
Qed.

Lemma include_missing_file_witness :
  IncludePart_render (VM := Json) (FS := NoFiles) None 1 "row.tpl" VEmpty ""
  = NullDeref.
Proof.
  apply (include_missing_file Json NoFiles 0 "row.tpl" VEmpty ""). reflexivity.
Defined.

(** X27. Without a template cache, rendering an include of a
    file whose template reaches an include of the same path after literal
    text only does not return: no bound on the depth of nested includes is
    enough. *)
Theorem self_include_never_returns (VM : ValueModel) (FS : FileSystem)
    path tpl before rest depth data out :
  Template_parse_file (Template_new path) = Done tpl ->
  Template_parts tpl
  = Some (MultiPart (text_parts before ++ IncludePart path :: rest)) ->
  IncludePart_render None depth path data out = Exhausted.
Proof.
  intros Hparse Hparts. revert data out.
  induction depth as [|depth IH]; intros data out; [reflexivity|].
  cbn [IncludePart_render]. rewrite Hparse. unfold mbind at 1, Outcome_bind at 1.
  unfold Template_render. rewrite Hparts.
  cbn [render]. rewrite map_app, MultiPart_render_app, render_text_parts.
  unfold mbind at 1, Outcome_bind at 1. cbn [List.map MultiPart_render render].
  rewrite IH. reflexivity.
Qed.

Lemma self_include_never_returns_witness :
  IncludePart_render (VM := Json) (FS := SelfFiles) None 7 "self.tpl" VEmpty ""
  = Exhausted.
Proof.
  apply (self_include_never_returns Json SelfFiles "self.tpl"
           {| _templatePath := "self.tpl";
              _tree := Some {| _currentPart := [IncludePart "self.tpl"];
                               _partStack := [] |} |} "" []).
  - vm_compute. reflexivity.
  - reflexivity.
Defined.
